(** * NYTimesSource: the record reconciliation and streaming pipeline

    A shallow embedding of [data_loader.py]: the flattener
    ([_flatten_dict], [_get_nested_data]), the review-status joiner
    ([_match_by_review_status]), the reconciliation generator
    ([_docs_generator]) and the batch/schema source ([getDataBatch],
    [getSchema], [_check_args], [_load_schema], [_load_data]).

    Python dictionaries are insertion-ordered association lists, the
    dictionaries created at run time live in an object store and are
    referred to by their location, exceptions are an explicit outcome, and
    the two generators are state machines that are advanced one [next] at a
    time. *)

From Stdlib Require Import String Ascii ZArith List Lia Permutation Sorted.
From stdpp Require Import list.
Import ListNotations.

Local Open Scope string_scope.
Local Open Scope list_scope.

(** ** Outcomes of a Python computation *)

(** The exception classes the program can raise. [NoArgumentsException] is
    the program's own; [OSError] stands for any failure to read or parse
    one of the two input files. *)
Inductive exn : Type :=
| NoArgumentsException
| KeyError
| TypeError
| IndexError
| ValueError
| AttributeError
| OSError.

(** A computation returns, raises, or (for the [while] loop of the
    flattener, which is run on fuel) is cut off. *)
Inductive outcome (A : Type) : Type :=
| Ok (a : A)
| Raise (e : exn)
| OutOfFuel.

Arguments Ok {A} a.
Arguments Raise {A} e.
Arguments OutOfFuel {A}.

Global Instance outcome_ret : MRet outcome := fun A a => Ok a.

Global Instance outcome_bind : MBind outcome := fun A B k m =>
  match m with
  | Ok a => k a
  | Raise e => Raise e
  | OutOfFuel => OutOfFuel
  end.

(** ** Python values *)

Module Py.

(** What [json.load] produces, and what a pandas cell converts to:
    [None], booleans, numbers (integers; [VNaN] is the float [nan]),
    strings, lists and insertion-ordered dictionaries with string keys. *)
#[warnings="-register-all"]
Inductive value : Type :=
| VNull
| VBool (b : bool)
| VNum (z : Z)
| VNaN
| VStr (s : string)
| VList (l : list value)
| VDict (d : list (string * value)).

Definition dict : Type := list (string * value).

(** [isinstance(item, dict)] *)
Definition is_dict (v : value) : bool :=
  match v with
  | VDict _ => true
  | _ => false
  end.

(** [d.keys()], in insertion order *)
Definition dict_keys (d : dict) : list string := map fst d.

(** [d.get(key)] as an option *)
Fixpoint dict_get (key : string) (d : dict) : option value :=
  match d with
  | [] => None
  | (k, x) :: d' => if String.eqb k key then Some x else dict_get key d'
  end.

(** [d[key] = v]: an existing key keeps its position, a new key goes last *)
Fixpoint dict_set (key : string) (v : value) (d : dict) : dict :=
  match d with
  | [] => [(key, v)]
  | (k, x) :: d' =>
      if String.eqb k key then (k, v) :: d' else (k, x) :: dict_set key v d'
  end.

(** [d.update(other)]: the items of [other] are assigned in order *)
Definition dict_update (d other : dict) : dict :=
  fold_left (fun acc kv => dict_set (fst kv) (snd kv) acc) other d.

(** [v[key]] for a string key: only a dictionary can be subscripted by a
    string; lists, strings, numbers and [None] raise [TypeError]. *)
Definition getitem (v : value) (key : string) : outcome value :=
  match v with
  | VDict d =>
      match dict_get key d with
      | Some x => Ok x
      | None => Raise KeyError
      end
  | _ => Raise TypeError
  end.

(** [key.split(".")] *)
Fixpoint split_dot (s : string) : list string :=
  match s with
  | EmptyString => [EmptyString]
  | String c rest =>
      if Ascii.eqb c "."%char then EmptyString :: split_dot rest
      else match split_dot rest with
           | hd :: tl => String c hd :: tl
           | [] => [String c EmptyString]
           end
  end.

(** [f"{key}.{ele}"] *)
Definition dotted (key ele : string) : string := key ++ "." ++ ele.

(** [key.lower()] on a string of ASCII characters: the letters A to Z
    become a to z and nothing else changes. Python also lowers the letters
    outside ASCII, some of them to more than one character; the statements
    about [lower] are made for strings of ASCII characters. *)
Definition ascii_lower (c : ascii) : ascii :=
  let n := nat_of_ascii c in
  if (65 <=? n)%nat && (n <=? 90)%nat then ascii_of_nat (n + 32) else c.

Fixpoint lower (s : string) : string :=
  match s with
  | EmptyString => EmptyString
  | String c rest => String (ascii_lower c) (lower rest)
  end.

(** [key.replace(" ", "_")] *)
Fixpoint replace_space (s : string) : string :=
  match s with
  | EmptyString => EmptyString
  | String c rest =>
      String (if Ascii.eqb c " "%char then "_"%char else c) (replace_space rest)
  end.

(** Nesting depth of dictionaries: the number of dictionary levels on the
    deepest path that goes through dictionary values only. *)
Fixpoint depth (v : value) : nat :=
  match v with
  | VDict d =>
      S ((fix go (d : list (string * value)) : nat :=
            match d with
            | [] => 0
            | (_, x) :: d' => Nat.max (depth x) (go d')
            end) d)
  | _ => 0
  end.

End Py.
Import Py.

(** ** The flattener *)

(** [_get_nested_data]: walk [path] from [data], one subscript per
    segment. *)
Fixpoint _get_nested_data (data : value) (path : list string) : outcome value :=
  match path with
  | [] => Ok data
  | key :: rest => _tmp ← getitem data key; _get_nested_data _tmp rest
  end.

(** The [for key in keys] loop of [_flatten_dict]: the loop state is
    [flatten_doc], [nested_keys] and [go_deep]. *)
Fixpoint flatten_for (doc : value) (keys : list string)
    (flatten_doc : dict) (nested_keys : list string) (go_deep : bool)
    : outcome (dict * list string * bool) :=
  match keys with
  | [] => Ok (flatten_doc, nested_keys, go_deep)
  | key :: keys' =>
      item ← _get_nested_data doc (split_dot key);
      match item with
      | VDict d =>
          flatten_for doc keys' flatten_doc
            (nested_keys ++ map (dotted key) (dict_keys d)) true
      | _ =>
          flatten_for doc keys' (dict_set key item flatten_doc)
            nested_keys go_deep
      end
  end.

(** The [while go_deep] loop, one round per unit of fuel. *)
Fixpoint flatten_while (fuel : nat) (doc : value) (keys : list string)
    (flatten_doc : dict) : outcome dict :=
  match fuel with
  | O => OutOfFuel
  | S fuel' =>
      round ← flatten_for doc keys flatten_doc [] false;
      let '(flatten_doc', nested_keys, go_deep) :=
        (round : dict * list string * bool) in
      if go_deep then flatten_while fuel' doc nested_keys flatten_doc'
      else Ok flatten_doc'
  end.

(** [_flatten_dict]. [doc.keys()] needs a dictionary; anything else has no
    [keys] attribute. The loop runs on [depth doc] units of fuel, which
    [flatten_dict_terminates] shows is never used up. *)
Definition _flatten_dict (doc : value) : outcome dict :=
  match doc with
  | VDict d => flatten_while (depth doc) doc (dict_keys d) []
  | _ => Raise AttributeError
  end.

(** ** The combined reference table *)

Module Pandas.

(** A cell of the table: a number, a string, or a missing value. The
    numbers are the integers of the ordinal column; pandas holds them in 64
    bits, as floats once the column has a missing value, so a number of the
    model is the number of the table up to 2^53 in absolute value. *)
Inductive cell : Type :=
| CNum (z : Z)
| CStr (s : string)
| CNaN.

(** A row together with its column labels (the [Series] that [iloc]
    returns), and the merged frame as the list of its rows: the merge gives
    the frame a fresh range index, so the label of a row is its position. *)
Definition row : Type := list (string * cell).
Definition DataFrame : Type := list row.

Definition value_of_cell (c : cell) : value :=
  match c with
  | CNum z => VNum z
  | CStr s => VStr s
  | CNaN => VNaN
  end.

Fixpoint row_get (name : string) (r : row) : option cell :=
  match r with
  | [] => None
  | (k, c) :: r' => if String.eqb k name then Some c else row_get name r'
  end.

(** [frame[name]]: the column as a list of cells, [KeyError] when a row
    lacks the column. *)
Fixpoint column (name : string) (frame : DataFrame) : outcome (list cell) :=
  match frame with
  | [] => Ok []
  | r :: frame' =>
      match row_get name r with
      | Some c => cs ← column name frame'; Ok (c :: cs)
      | None => Raise KeyError
      end
  end.

(** [cell == v] for a scalar [v]; a missing value equals nothing, and
    [True]/[False] compare as 1/0. *)
Definition cell_eq (c : cell) (v : value) : bool :=
  match c, v with
  | CStr s, VStr t => String.eqb s t
  | CNum n, VNum m => Z.eqb n m
  | CNum n, VBool b => Z.eqb n (if b then 1 else 0)
  | _, _ => false
  end.

Fixpoint cell_eq_each (s : list cell) (l : list value) : list bool :=
  match s, l with
  | c :: s', v :: l' => cell_eq c v :: cell_eq_each s' l'
  | _, _ => []
  end.

(** [series == v]: elementwise against a scalar; a list is compared
    position by position and must have the length of the series. *)
Definition series_eq (s : list cell) (v : value) : outcome (list bool) :=
  match v with
  | VList l =>
      if Nat.eqb (length l) (length s) then Ok (cell_eq_each s l)
      else Raise ValueError
  | _ => Ok (map (fun c => cell_eq c v) s)
  end.

(** [series[mask]] with the labels kept: the pairs (label, cell) of the
    selected positions, labels counted from [i]. *)
Fixpoint select (i : nat) (mask : list bool) (s : list cell) : list (nat * cell) :=
  match mask, s with
  | b :: mask', c :: s' =>
      if b then (i, c) :: select (S i) mask' s' else select (S i) mask' s'
  | _, _ => []
  end.

(** A column that holds a string has dtype [object]. *)
Definition is_object (s : list cell) : bool :=
  existsb (fun c => match c with CStr _ => true | _ => false end) s.

(** The scan of [idxmax]: the label of the first occurrence of the largest
    number, missing values skipped. *)
Fixpoint idxmax_scan (best : option (nat * Z)) (s : list (nat * cell))
    : option (nat * Z) :=
  match s with
  | [] => best
  | (i, CNum z) :: s' =>
      match best with
      | Some (_, b) =>
          if (b <? z)%Z then idxmax_scan (Some (i, z)) s' else idxmax_scan best s'
      | None => idxmax_scan (Some (i, z)) s'
      end
  | _ :: s' => idxmax_scan best s'
  end.

(** [excel_data.iloc[filtered["Row"].idxmax()]], where [whole] is the
    unfiltered column: [argmax] is refused on dtype [object], an empty
    selection has no maximum, and a selection of missing values only gives
    a label that [iloc] refuses. *)
Definition iloc_idxmax (frame : DataFrame) (whole : list cell)
    (selected : list (nat * cell)) : outcome row :=
  if is_object whole then Raise TypeError
  else match selected with
       | [] => Raise ValueError
       | _ =>
           match idxmax_scan None selected with
           | None => Raise TypeError
           | Some (i, _) =>
               match frame !! i with
               | Some r => Ok r
               | None => Raise IndexError
               end
           end
       end.

(** [{k: v for k, v in items}] *)
Definition dict_of_items (items : list (string * value)) : dict :=
  dict_update [] items.

(** [series.to_dict()] *)
Definition to_dict (r : row) : dict :=
  dict_of_items (map (fun kc => (fst kc, value_of_cell (snd kc))) r).

End Pandas.
Import Pandas.

(** ** The object store *)

(** The dictionaries created while the program runs. A location that was
    never allocated reads as the empty dictionary. *)
Record store : Type := {
  objects : nat -> dict;
  next_loc : nat
}.

Definition empty_store : store := {| objects := fun _ => []; next_loc := 0 |}.

Definition write (l : nat) (d : dict) (h : store) : store :=
  {| objects := fun l' => if Nat.eqb l' l then d else objects h l';
     next_loc := next_loc h |}.

Definition alloc (d : dict) (h : store) : nat * store :=
  (next_loc h,
   {| objects := fun l' => if Nat.eqb l' (next_loc h) then d else objects h l';
      next_loc := S (next_loc h) |}).

(** ** The joiner *)

(** [key.lower().replace(" ", "_")] *)
Definition normalize (key : string) : string := replace_space (lower key).

(** The dictionary comprehension of [_match_by_review_status] *)
Definition normalized_columns (series : row) : dict :=
  dict_of_items (map (fun kv => (normalize (fst kv), snd kv)) (to_dict series)).

(** Lines 168 to 170: the row that [series] is bound to. *)
Definition matching_series (doc : dict) (excel_data : DataFrame) : outcome row :=
  let article_id := default VNull (dict_get "_id" doc) in
  ids ← column "Article Id" excel_data;
  mask ← series_eq ids article_id;
  rows ← column "Row" excel_data;
  iloc_idxmax excel_data rows (select 0 mask rows).

(** [_match_by_review_status]: [doc] is a reference; the dictionary it
    points to is updated where it is and the same reference is returned. *)
Definition _match_by_review_status (doc : nat) (excel_data : DataFrame)
    (h : store) : outcome (nat * store) :=
  series ← matching_series (objects h doc) excel_data;
  Ok (doc, write doc (dict_update (objects h doc) (normalized_columns series)) h).

(** ** The reconciliation generator *)

(** The state of a [_docs_generator(docs, excel_data)] object: the
    documents the [for] loop has not reached yet, and the table. A
    generator that has raised is finished. *)
Record docs_gen : Type := {
  pending : list value;
  table : DataFrame
}.

Definition finished (g : docs_gen) : docs_gen :=
  {| pending := []; table := table g |}.

(** One [next] on the generator: [Ok (Some r)] yields the reference [r],
    [Ok None] is [StopIteration]. The flattened dictionary is a new object;
    the joiner then updates that object. *)
Definition docs_next (g : docs_gen) (h : store)
    : outcome (option nat) * docs_gen * store :=
  match pending g with
  | [] => (Ok None, g, h)
  | doc :: rest =>
      match _flatten_dict doc with
      | Ok flat =>
          let '(l, h1) := alloc flat h in
          match _match_by_review_status l (table g) h1 with
          | Ok (r, h2) =>
              (Ok (Some r), {| pending := rest; table := table g |}, h2)
          | Raise e => (Raise e, finished g, h1)
          | OutOfFuel => (OutOfFuel, finished g, h1)
          end
      | Raise e => (Raise e, finished g, h)
      | OutOfFuel => (OutOfFuel, finished g, h)
      end
  end.

(** [next] repeated until the generator stops or raises, at most [pulls]
    times: the references yielded, and how the run ended ([OutOfFuel]: it
    had not ended yet). *)
Fixpoint drain (pulls : nat) (g : docs_gen) (h : store)
    : list nat * outcome unit * docs_gen * store :=
  match pulls with
  | O => ([], OutOfFuel, g, h)
  | S pulls' =>
      let '(r, g', h') := docs_next g h in
      match r with
      | Ok (Some doc) =>
          let '(rest, fin, g'', h'') := drain pulls' g' h' in
          (doc :: rest, fin, g'', h'')
      | Ok None => ([], Ok (), g', h')
      | Raise e => ([], Raise e, g', h')
      | OutOfFuel => ([], OutOfFuel, g', h')
      end
  end.

(** ** The batch/schema source *)

Record Namespace : Type := {
  api_response_file : string;
  reference_data_file : string
}.

(** The fields of an instance that change; [_response_docs] is constant. *)
Record NYTimesSource : Type := {
  args : option Namespace;
  _docs : option docs_gen;
  _schema : option (list string)
}.

Definition _response_docs : list string := ["response"; "docs"].

(** [NYTimesSource()] *)
Definition __init__ : NYTimesSource :=
  {| args := None; _docs := None; _schema := None |}.

(** The two input files, as the loaders see them: the parsed JSON of a
    path, and for the reference file the outer merge of its two sheets on
    ["Reference Id"]. A file that cannot be read or parsed raises. *)
Record Env : Type := {
  read_json : string -> exn + value;
  read_reference : string -> exn + DataFrame
}.

Definition loaded {A : Type} (r : exn + A) : outcome A :=
  match r with
  | inl e => Raise e
  | inr a => Ok a
  end.

(** [_check_args] *)
Definition _check_args (self : NYTimesSource) : outcome unit :=
  match args self with
  | None => Raise NoArgumentsException
  | Some _ => Ok ()
  end.

(** [docs[0]] *)
Definition index0 (docs : value) : outcome value :=
  match docs with
  | VList (first :: _) => Ok first
  | VList [] => Raise IndexError
  | VStr (String c _) => Ok (VStr (String c EmptyString))
  | VStr EmptyString => Raise IndexError
  | VDict _ => Raise KeyError
  | _ => Raise TypeError
  end.

Fixpoint chars (s : string) : list value :=
  match s with
  | EmptyString => []
  | String c rest => VStr (String c EmptyString) :: chars rest
  end.

(** What [for doc in docs] goes through. [_load_data] only gets as far as
    creating the generator when [docs[0]] flattens, so [docs] is a list
    there. *)
Definition iter (docs : value) : list value :=
  match docs with
  | VList l => l
  | VDict d => map VStr (dict_keys d)
  | VStr s => chars s
  | _ => []
  end.

(** Lines 122 to 140 of [_load_data] up to the flattening of [docs[0]]. *)
Definition load_inputs (env : Env) (a : Namespace)
    : outcome (value * DataFrame * dict) :=
  data ← loaded (read_json env (api_response_file a));
  docs ← _get_nested_data data _response_docs;
  excel_data ← loaded (read_reference env (reference_data_file a));
  first ← index0 docs;
  flat ← _flatten_dict first;
  Ok (docs, excel_data, flat).

(** [_load_data] *)
Definition _load_data (env : Env) (self : NYTimesSource) (h : store)
    : outcome unit * NYTimesSource * store :=
  match _docs self with
  | Some _ => (Ok (), self, h)
  | None =>
      match args self with
      | None => (Raise AttributeError, self, h)
      | Some a =>
          match load_inputs env a with
          | Ok (docs, excel_data, flat) =>
              let '(l, h1) := alloc flat h in
              match _match_by_review_status l excel_data h1 with
              | Ok (r, h2) =>
                  (Ok (),
                   {| args := args self;
                      _docs := Some {| pending := iter docs; table := excel_data |};
                      _schema := Some (dict_keys (objects h2 r)) |},
                   h2)
              | Raise e => (Raise e, self, h1)
              | OutOfFuel => (OutOfFuel, self, h1)
              end
          | Raise e => (Raise e, self, h)
          | OutOfFuel => (OutOfFuel, self, h)
          end
      end
  end.

(** [_load_schema] *)
Definition _load_schema (env : Env) (self : NYTimesSource) (h : store)
    : outcome unit * NYTimesSource * store :=
  match _schema self with
  | Some _ => (Ok (), self, h)
  | None => _load_data env self h
  end.

(** [getSchema]: the value returned is the field [_schema]. *)
Definition getSchema (env : Env) (self : NYTimesSource) (h : store)
    : outcome (option (list string)) * NYTimesSource * store :=
  match _check_args self with
  | Ok _ =>
      let '(r, self', h') := _load_schema env self h in
      match r with
      | Ok _ => (Ok (_schema self'), self', h')
      | Raise e => (Raise e, self', h')
      | OutOfFuel => (OutOfFuel, self', h')
      end
  | Raise e => (Raise e, self, h)
  | OutOfFuel => (OutOfFuel, self, h)
  end.

Definition set_docs (self : NYTimesSource) (g : docs_gen) : NYTimesSource :=
  {| args := args self; _docs := Some g; _schema := _schema self |}.

(** The [for _ in range(batch_size)] loop of [getDataBatch] with its
    [try]: [Ok (true, results)] when the range is used up, [Ok (false,
    results)] when [next] raised [StopIteration]. *)
Fixpoint batch_for (n : nat) (self : NYTimesSource) (h : store)
    (results : list nat) : outcome (bool * list nat) * NYTimesSource * store :=
  match n with
  | O => (Ok (true, results), self, h)
  | S n' =>
      match _docs self with
      | None => (Raise TypeError, self, h)
      | Some g =>
          let '(r, g', h') := docs_next g h in
          match r with
          | Ok (Some doc) => batch_for n' (set_docs self g') h' (results ++ [doc])
          | Ok None => (Ok (false, results), set_docs self g', h')
          | Raise e => (Raise e, set_docs self g', h')
          | OutOfFuel => (OutOfFuel, set_docs self g', h')
          end
      end
  end.

(** Where a [getDataBatch(batch_size)] generator object is suspended: not
    started, at the [yield] that ends the loop body, at the [yield] in the
    [except] branch, or finished. *)
Inductive batch_gen : Type :=
| BatchNew (batch_size : Z)
| BatchYielded (batch_size : Z)
| BatchLast
| BatchDone.

(** [getDataBatch(batch_size)]: calling a generator function runs none of
    its body. *)
Definition getDataBatch (batch_size : Z) : batch_gen := BatchNew batch_size.

(** One turn of [while True], up to its [yield] or [break]. *)
Definition batch_loop (batch_size : Z) (self : NYTimesSource) (h : store)
    : outcome (option (list nat)) * batch_gen * NYTimesSource * store :=
  let '(r, self', h') := batch_for (Z.to_nat batch_size) self h [] in
  match r with
  | Ok (true, results) => (Ok (Some results), BatchYielded batch_size, self', h')
  | Ok (false, []) => (Ok None, BatchDone, self', h')
  | Ok (false, results) => (Ok (Some results), BatchLast, self', h')
  | Raise e => (Raise e, BatchDone, self', h')
  | OutOfFuel => (OutOfFuel, BatchDone, self', h')
  end.

(** One [next] on a [getDataBatch] generator: [Ok (Some batch)] yields,
    [Ok None] is [StopIteration]. *)
Definition batch_next (env : Env) (b : batch_gen) (self : NYTimesSource)
    (h : store) : outcome (option (list nat)) * batch_gen * NYTimesSource * store :=
  match b with
  | BatchNew batch_size =>
      match _check_args self with
      | Ok _ =>
          let '(r, self', h') := _load_data env self h in
          match r with
          | Ok _ => batch_loop batch_size self' h'
          | Raise e => (Raise e, BatchDone, self', h')
          | OutOfFuel => (OutOfFuel, BatchDone, self', h')
          end
      | Raise e => (Raise e, BatchDone, self, h)
      | OutOfFuel => (OutOfFuel, BatchDone, self, h)
      end
  | BatchYielded batch_size => batch_loop batch_size self h
  | BatchLast => (Ok None, BatchDone, self, h)
  | BatchDone => (Ok None, BatchDone, self, h)
  end.

(** [for batch in gen], at most [pulls] times [next]: the batches yielded
    and how the iteration ended ([OutOfFuel]: it had not ended yet). *)
Fixpoint iterate (pulls : nat) (env : Env) (b : batch_gen)
    (self : NYTimesSource) (h : store)
    : list (list nat) * outcome unit * NYTimesSource * store :=
  match pulls with
  | O => ([], OutOfFuel, self, h)
  | S pulls' =>
      let '(r, b', self', h') := batch_next env b self h in
      match r with
      | Ok (Some batch) =>
          let '(rest, fin, self'', h'') := iterate pulls' env b' self' h' in
          (batch :: rest, fin, self'', h'')
      | Ok None => ([], Ok (), self', h')
      | Raise e => ([], Raise e, self', h')
      | OutOfFuel => ([], OutOfFuel, self', h')
      end
  end.

(** ** Leaves of a document, and well-formed documents *)

(** The leaves below [v], each under its dotted path from [path]: the
    descent goes through dictionaries only; a list or a scalar is a leaf. *)
Fixpoint leaves_at (path : string) (v : value) : list (string * value) :=
  match v with
  | VDict d =>
      flat_map (fun kv => leaves_at (dotted path (fst kv)) (snd kv)) d
  | _ => [(path, v)]
  end.

Definition leaves (d : dict) : list (string * value) :=
  flat_map (fun kv => leaves_at (fst kv) (snd kv)) d.

Fixpoint has_dot (s : string) : bool :=
  match s with
  | EmptyString => false
  | String c rest => Ascii.eqb c "."%char || has_dot rest
  end.

Fixpoint distinct (l : list string) : bool :=
  match l with
  | [] => true
  | k :: l' => negb (existsb (String.eqb k) l') && distinct l'
  end.

(** The keys of a Python dictionary are pairwise different, at every
    level. *)
Fixpoint unique_keys (v : value) : bool :=
  match v with
  | VDict d =>
      distinct (map fst d) && forallb (fun kv => unique_keys (snd kv)) d
  | _ => true
  end.

(** No key of a dictionary level has a ["."] in it. *)
Fixpoint plain_keys (v : value) : bool :=
  match v with
  | VDict d =>
      forallb (fun kv => negb (has_dot (fst kv)) && plain_keys (snd kv)) d
  | _ => true
  end.

(** An already-flat mapping: no value is a dictionary. *)
Definition flat_dict (d : dict) : bool :=
  forallb (fun kv => negb (is_dict (snd kv))) d.

(** A well-formed document: unique keys, none with a ["."], at every
    dictionary level. *)
Definition well_formed (v : value) : Prop :=
  unique_keys v = true /\ plain_keys v = true.

(** Every key of [keys] splits into at least [n] segments. *)
Definition segments (n : nat) (keys : list string) : Prop :=
  Forall (fun k => n <= length (split_dot k)) keys.

(** ** The frontier of the flattener *)

(** The flattener works level by level on a frontier of keys; here a
    frontier carries, with each key, the value the key resolves to. *)
Definition frontier : Type := list (string * value).

(** The entries of a frontier that [flatten_doc] receives. *)
Definition emitted (F : frontier) : frontier :=
  List.filter (fun kv => negb (is_dict (snd kv))) F.

(** The entries that replace a dictionary entry in the next frontier. *)
Definition children_of (kv : string * value) : frontier :=
  match snd kv with
  | VDict d => map (fun ex => (dotted (fst kv) (fst ex), snd ex)) d
  | _ => []
  end.

Definition children (F : frontier) : frontier := flat_map children_of F.

Definition has_dict (F : frontier) : bool :=
  existsb (fun kv => is_dict (snd kv)) F.

(** What [fuel] rounds of the loop assign to [flatten_doc], in order. *)
Fixpoint levels (fuel : nat) (F : frontier) : frontier :=
  match fuel with
  | O => []
  | S fuel' => emitted F ++ levels fuel' (children F)
  end.

Fixpoint frontier_depth (F : frontier) : nat :=
  match F with
  | [] => 0
  | kv :: F' => Nat.max (depth (snd kv)) (frontier_depth F')
  end.

(** Every key of the frontier resolves, from the root, to its value. *)
Definition resolves (doc : value) (F : frontier) : Prop :=
  Forall (fun kv => _get_nested_data doc (split_dot (fst kv)) = Ok (snd kv)) F.

Definition well_formed_frontier (F : frontier) : Prop :=
  Forall (fun kv => well_formed (snd kv)) F.

(** The rest of a dotted path after a key: nothing, or a ["."] and more. *)
Definition path_tail (s : string) : Prop :=
  s = EmptyString \/ exists t, s = String "."%char t.

(** No value of the dictionary is a dictionary. *)
Definition no_dict_value (d : dict) : Prop :=
  Forall (fun kv => is_dict (snd kv) = false) d.

(** ** Induction on values through their dictionaries *)

Section ValueInduction.

Variable P : value -> Prop.
Hypothesis leaf : forall v, is_dict v = false -> P v.
Hypothesis node : forall d, Forall (fun kv => P (snd kv)) d -> P (VDict d).

Fixpoint value_dict_ind (v : value) : P v :=
  match v with
  | VDict d =>
      node d
        ((fix go (d : list (string * value)) : Forall (fun kv => P (snd kv)) d :=
            match d with
            | [] => List.Forall_nil _
            | (k, x) :: d' => List.Forall_cons _ (k, x) d' (value_dict_ind x) (go d')
            end) d)
  | VNull => leaf VNull eq_refl
  | VBool b => leaf (VBool b) eq_refl
  | VNum z => leaf (VNum z) eq_refl
  | VNaN => leaf VNaN eq_refl
  | VStr s => leaf (VStr s) eq_refl
  | VList l => leaf (VList l) eq_refl
  end.

End ValueInduction.

(** ** Rows of the table, for the statements about the joiner *)








(** The table of the scenario: two rows for article ["A1"]. *)
Definition review_table : DataFrame :=
  [[("Row", CNum 1); ("Article Id", CStr "A1"); ("Status", CStr "pending")];
   [("Row", CNum 2); ("Article Id", CStr "A1"); ("Status", CStr "approved")]].

(** ** Example inputs *)

Definition nested_example : dict :=
  [("_id", VStr "A1");
   ("headline", VDict [("main", VStr "t"); ("sub", VDict [("q", VList [VNum 1])])]);
   ("word_count", VNum 3)].

(** A store with one flattened document, at location 0. *)
Definition example_store : store :=
  snd (alloc [("_id", VStr "A1"); ("headline.main", VStr "t")] empty_store).

(** The flattener and then the joiner on one document, on their own: the
    mapping the joiner returns. *)
Definition reconciled (doc : value) (excel_data : DataFrame) : outcome dict :=
  flat ← _flatten_dict doc;
  r ← _match_by_review_status 0 excel_data (snd (alloc flat empty_store));
  Ok (objects (snd r) (fst r)).

(** [records] are the reconciled records of [docs], one for one. *)
Definition reconciles (excel_data : DataFrame) (docs : list value)
    (records : list dict) : Prop :=
  Forall2 (fun doc r => reconciled doc excel_data = Ok r) docs records.

(** From [h] to [h']: the dictionaries [records] were added, in order, and
    the dictionaries [h] had are the same. *)
Definition grows (h h' : store) (records : list dict) : Prop :=
  next_loc h' = next_loc h + length records /\
  (forall l, l < next_loc h -> objects h' l = objects h l) /\
  (forall i r, records !! i = Some r -> objects h' (next_loc h + i) = r).

(** A loaded source: its generator still has [docs] to go through. *)
Definition source_with (a : option Namespace) (s : option (list string))
    (docs : list value) (t : DataFrame) : NYTimesSource :=
  {| args := a; _docs := Some {| pending := docs; table := t |}; _schema := s |}.

(** The batch sizes for [N] records in batches of [B]. *)
Definition batch_sizes (B N : nat) : list nat :=
  replicate (N / B) B ++ (if Nat.eqb (N mod B) 0 then [] else [N mod B]).

(** Two raw documents, and the environment and source of a run on them. *)
Definition example_docs : list value :=
  [VDict nested_example; VDict [("_id", VStr "A1")]].

Definition example_env : Env :=
  {| read_json := fun _ =>
       inr (VDict [("response", VDict [("docs", VList example_docs)])]);
     read_reference := fun _ => inr review_table |}.

Definition example_args : Namespace :=
  {| api_response_file := "api_response.json";
     reference_data_file := "reference_data.xlsx" |}.

Definition example_source : NYTimesSource :=
  {| args := Some example_args; _docs := None; _schema := None |}.

(** A configured source that holds the documents [docs] and the table [t]:
    either it is loaded and its generator still has [docs] to go through,
    or it is not loaded yet and the two files hold [docs] and [t]. *)
Definition configured_with (env : Env) (self : NYTimesSource)
    (docs : list value) (t : DataFrame) : Prop :=
  exists a,
    args self = Some a /\
    (_docs self = Some {| pending := docs; table := t |} \/
     (_docs self = None /\
      exists data,
        read_json env (api_response_file a) = inr data /\
        _get_nested_data data _response_docs = Ok (VList docs) /\
        read_reference env (reference_data_file a) = inr t)).

(** Five raw documents, for the scenario with batches of two. *)
Definition five_docs : list value :=
  map (fun n => VDict [("_id", VStr "A1"); ("word_count", VNum n)])
      [1; 2; 3; 4; 5]%Z.

Definition five_env : Env :=
  {| read_json := fun _ =>
       inr (VDict [("response", VDict [("docs", VList five_docs)])]);
     read_reference := fun _ => inr review_table |}.

(** The files of a source whose document collection is empty. *)
Definition empty_env : Env :=
  {| read_json := fun _ => inr (VDict [("response", VDict [("docs", VList [])])]);
     read_reference := fun _ => inr review_table |}.

(** The records of [docs], with an empty record where the flattener or
    the joiner raises. *)
Definition records_of (t : DataFrame) (docs : list value) : list dict :=
  map (fun doc => match reconciled doc t with Ok r => r | _ => [] end) docs.

(** The record of the first example document. *)
Definition example_record : dict :=
  Eval vm_compute in
    match reconciled (VDict nested_example) review_table with
    | Ok r => r
    | _ => []
    end.

(** ** The sheet loader *)

(** Python's [str.strip()] on a string of ASCII characters, whose white
    space is: tab to carriage return (9 to 13), the four separators 28 to
    31, and the space. Python also strips the white space outside ASCII
    (the no-break space, the Unicode separators); the statements about
    [strip] are made for strings of ASCII characters. *)
Definition is_space (c : ascii) : bool :=
  let n := nat_of_ascii c in
  ((9 <=? n)%nat && (n <=? 13)%nat) || ((28 <=? n)%nat && (n <=? 32)%nat).

Fixpoint lstrip (s : string) : string :=
  match s with
  | EmptyString => EmptyString
  | String c rest => if is_space c then lstrip rest else s
  end.

Fixpoint rstrip (s : string) : string :=
  match s with
  | EmptyString => EmptyString
  | String c rest =>
      match rstrip rest with
      | EmptyString => if is_space c then EmptyString else String c EmptyString
      | rest' => String c rest'
      end
  end.

Definition strip (s : string) : string := rstrip (lstrip s).

Definition starts_with_space (s : string) : bool :=
  match s with
  | EmptyString => false
  | String c _ => is_space c
  end.

Fixpoint ends_with_space (s : string) : bool :=
  match s with
  | EmptyString => false
  | String c EmptyString => is_space c
  | String _ rest => ends_with_space rest
  end.

(** The converter of [_load_sheet]:
    [lambda x: x.strip() if isinstance(x, str) else x] *)
Definition strip_converter (x : cell) : cell :=
  match x with
  | CStr s => CStr (strip s)
  | _ => x
  end.

(** The declared type of a column; only the column names are used. *)
Inductive pytype : Type :=
| TStr
| TInt
| TFloat.

(** An [Excel] object. *)
Record Excel : Type := {
  _path : string;
  _sheet_name : string;
  _index_col : option nat;
  _header : nat;
  _column_type : list (string * pytype);
  _excel_df : option DataFrame
}.

(** [Excel(path, sheet_name, index_col, header, column_type)] *)
Definition Excel__init__ (path sheet_name : string) (index_col : option nat)
    (header : nat) (column_type : list (string * pytype)) : Excel :=
  {| _path := path; _sheet_name := sheet_name; _index_col := index_col;
     _header := header; _column_type := column_type; _excel_df := None |}.

(** The property [columns]: [list(self._column_type.keys())] *)
Definition columns (self : Excel) : list string := map fst (_column_type self).

(** What [read_excel] parses from a file, before the converters: a sheet
    of a path, with its index column and header row, or an exception. *)
Definition Reader : Type :=
  string -> string -> option nat -> nat -> exn + DataFrame.

Fixpoint converter_of (name : string) (converters : list (string * (cell -> cell)))
    : option (cell -> cell) :=
  match converters with
  | [] => None
  | (k, f) :: rest => if String.eqb k name then Some f else converter_of name rest
  end.

(** [read_excel(..., converters=converters)] applies the converter of a
    column to every cell of that column. pandas then looks for missing
    values in the converted column, and reads as missing a string that is
    one of its missing-value tokens (the empty string, [NA], and the
    like); that step is not part of this function, which gives the frame
    of a sheet whose converted cells are none of these tokens. *)
Definition apply_converters (converters : list (string * (cell -> cell)))
    (frame : DataFrame) : DataFrame :=
  map (map (fun kc =>
              match converter_of (fst kc) converters with
              | Some f => (fst kc, f (snd kc))
              | None => kc
              end)) frame.

Definition set_excel_df (self : Excel) (frame : DataFrame) : Excel :=
  {| _path := _path self; _sheet_name := _sheet_name self;
     _index_col := _index_col self; _header := _header self;
     _column_type := _column_type self; _excel_df := Some frame |}.

(** [_load_sheet]. The rows of a frame are numbered by their position, so
    [reset_index(drop=True)] leaves the frame as it is. *)
Definition _load_sheet (read_excel : Reader) (self : Excel) : outcome unit * Excel :=
  match _excel_df self with
  | Some _ => (Ok (), self)
  | None =>
      let converters := map (fun column => (column, strip_converter)) (columns self) in
      match read_excel (_path self) (_sheet_name self) (_index_col self)
              (_header self) with
      | inr raw => (Ok (), set_excel_df self (apply_converters converters raw))
      | inl e => (Raise e, self)
      end
  end.

(** The property [data_frame] *)
Definition data_frame (read_excel : Reader) (self : Excel)
    : outcome (option DataFrame) * Excel :=
  let '(r, self') := _load_sheet read_excel self in
  match r with
  | Ok _ => (Ok (_excel_df self'), self')
  | Raise e => (Raise e, self')
  | OutOfFuel => (OutOfFuel, self')
  end.

(** The two [Excel] objects that [_load_data] builds for a reference
    file. *)
Definition review_status_sheet (path : string) : Excel :=
  Excel__init__ path "review_status" (Some 0) 2
    [("Row", TStr); ("Article Id", TStr); ("Reference Id", TStr); ("Status", TStr)].

Definition date_completed_sheet (path : string) : Excel :=
  Excel__init__ path "date_completed" None 0
    [("Reference Id", TStr); ("Date Completed", TStr); ("Reviewer", TStr)].

(** ** Dotted paths and characters of a key *)

(** The key under which the flattener stores the leaf at the path
    [k], [ks]: the segments joined by ["."]. *)
Definition join_path (k : string) (ks : list string) : string :=
  fold_left dotted ks k.

Fixpoint string_forall (p : ascii -> bool) (s : string) : bool :=
  match s with
  | EmptyString => true
  | String c rest => p c && string_forall p rest
  end.

Definition is_upper (c : ascii) : bool :=
  let n := nat_of_ascii c in (65 <=? n)%nat && (n <=? 90)%nat.

Definition is_blank (c : ascii) : bool := Ascii.eqb c " "%char.

(** A raw sheet with cells to strip, and a reader that returns it. *)
Definition raw_sheet : DataFrame :=
  [[("Row", CNum 1); ("Article Id", CStr "  A1 "); ("Note", CStr " kept ")]].

Definition example_reader : Reader := fun _ _ _ _ => inr raw_sheet.

Definition failing_reader : Reader := fun _ _ _ _ => inl OSError.

(** The number of segments of a dotted key. *)
Definition key_depth (key : string) : nat := length (split_dot key).

Definition shallower (a b : string * value) : Prop :=
  key_depth (fst a) <= key_depth (fst b).

(** A document with a key that has a ["."] in it. *)
Definition dotted_example : dict :=
  [("a.b", VNum 1); ("a", VDict [("b", VNum 2)])].

(** The entries of [flat] are leaves of [doc] under their keys, and no key
    comes twice. *)
Definition kept (doc : value) (flat : dict) : Prop :=
  List.NoDup (dict_keys flat) /\
  forall k v, In (k, v) flat ->
    _get_nested_data doc (split_dot k) = Ok v /\ is_dict v = false.

(** From [h] to [h']: dictionaries may have been added, and the ones [h]
    had are the same. *)
Definition older (h h' : store) : Prop :=
  next_loc h <= next_loc h' /\
  forall l, l < next_loc h -> objects h' l = objects h l.

(** ** The identifier of a row, in the words of the specification *)




(** No two columns of a row have the same normalized name. *)
Definition distinct_columns (t : DataFrame) : bool :=
  forallb (fun r => distinct (map (fun kc => normalize (fst kc)) r)) t.

(** The keys of [items] that [d] does not have, in their order. *)
Definition new_keys (d items : dict) : list string :=
  List.filter (fun k => negb (existsb (String.eqb k) (dict_keys d))) (dict_keys items).

(** A character of the ASCII range. On strings of such characters [lower]
    and [strip] are Python's [str.lower] and [str.strip]. *)
Definition is_ascii (c : ascii) : bool := (nat_of_ascii c <? 128)%nat.

(** A collection whose second document has no row in the table, and the
    files of a source whose first document has none. *)
Definition unmatched_docs : list value :=
  [VDict [("_id", VStr "A1")]; VDict [("_id", VStr "B7")]; VDict [("_id", VStr "A1")]].

Definition unmatched_env : Env :=
  {| read_json := fun _ =>
       inr (VDict [("response",
                    VDict [("docs", VList (VDict [("_id", VStr "B7")] :: example_docs))])]);
     read_reference := fun _ => inr review_table |}.

(** * Properties *)

(** ** Outcomes *)

Lemma bind_Ok {A B : Type} (a : A) (k : A -> outcome B) : (Ok a ≫= k) = k a.
Proof. reflexivity. Qed.

Lemma bind_ok_inv {A B : Type} (m : outcome A) (k : A -> outcome B) (b : B) :
  (m ≫= k) = Ok b -> exists a, m = Ok a /\ k a = Ok b.
Proof.
  destruct m as [a | e | ]; simpl; intros H; try discriminate.
  exists a. split; [reflexivity | exact H].
Qed.

Lemma bind_cut_inv {A B : Type} (m : outcome A) (k : A -> outcome B) :
  (m ≫= k) = OutOfFuel -> m = OutOfFuel \/ exists a, m = Ok a /\ k a = OutOfFuel.
Proof.
  destruct m as [a | e | ]; simpl; intros H; try discriminate.
  - right. exists a. split; [reflexivity | exact H].
  - left. reflexivity.
Qed.

(** ** Strings and paths *)

Lemma split_dot_nonempty (s : string) : split_dot s <> [].
Proof.
  destruct s as [| c rest]; simpl; [discriminate |].
  destruct (Ascii.eqb c "."); [discriminate |].
  destruct (split_dot rest); discriminate.
Qed.

Lemma split_dot_length (s : string) : 1 <= length (split_dot s).
Proof.
  pose proof (split_dot_nonempty s) as H.
  destruct (split_dot s); [congruence | simpl; lia].
Qed.

Lemma split_dot_dotted (key ele : string) :
  split_dot (dotted key ele) = split_dot key ++ split_dot ele.
Proof.
  unfold dotted. change ("." ++ ele)%string with (String "." ele).
  induction key as [| c key IH]; simpl.
  - reflexivity.
  - destruct (Ascii.eqb c ".").
    + rewrite IH. reflexivity.
    + rewrite IH.
      pose proof (split_dot_nonempty key) as Hne.
      destruct (split_dot key) as [| hd tl]; [congruence | reflexivity].
Qed.

Lemma split_dot_plain (s : string) : has_dot s = false -> split_dot s = [s].
Proof.
  induction s as [| c s IH]; simpl; intros H; [reflexivity |].
  apply orb_false_iff in H as [Hc Hs].
  rewrite Hc, (IH Hs). reflexivity.
Qed.

Lemma get_nested_data_app (data : value) (p q : list string) :
  _get_nested_data data (p ++ q) =
  (_get_nested_data data p ≫= fun x => _get_nested_data x q).
Proof.
  revert data. induction p as [| key p IH]; intros data; simpl.
  - reflexivity.
  - destruct (getitem data key) as [x | e | ]; simpl; [apply IH | reflexivity ..].
Qed.

Lemma getitem_not_cut (v : value) (key : string) : getitem v key <> OutOfFuel.
Proof.
  destruct v; simpl; try discriminate.
  destruct (dict_get key d); discriminate.
Qed.

Lemma get_nested_data_not_cut (data : value) (path : list string) :
  _get_nested_data data path <> OutOfFuel.
Proof.
  revert data. induction path as [| key path IH]; intros data; simpl.
  - discriminate.
  - intros H. apply bind_cut_inv in H as [H | (x & _ & H)].
    + exact (getitem_not_cut _ _ H).
    + exact (IH _ H).
Qed.

(** ** Depth *)

Lemma dict_get_depth (key : string) (d : dict) (x : value) :
  dict_get key d = Some x -> depth x < depth (VDict d).
Proof.
  induction d as [| [k y] d IH]; simpl; intros H; [discriminate |].
  destruct (String.eqb k key).
  - injection H as ->. lia.
  - specialize (IH H). simpl in IH. lia.
Qed.

Lemma get_nested_data_depth (data : value) (path : list string) (d : dict) :
  _get_nested_data data path = Ok (VDict d) -> length path < depth data.
Proof.
  revert data. induction path as [| key path IH]; intros data; simpl; intros H.
  - injection H as ->. simpl. lia.
  - apply bind_ok_inv in H as (x & Hx & H).
    specialize (IH _ H).
    destruct data; simpl in Hx; try discriminate.
    destruct (dict_get key d0) as [y |] eqn:Hy; [| discriminate].
    injection Hx as ->.
    pose proof (dict_get_depth _ _ _ Hy). lia.
Qed.

(** ** The flattener terminates *)

Section FlattenTermination.

Variable doc : value.

Lemma flatten_for_not_cut keys flat nested go_deep :
  flatten_for doc keys flat nested go_deep <> OutOfFuel.
Proof.
  revert flat nested go_deep.
  induction keys as [| key keys IH]; intros flat nested go_deep; simpl.
  - discriminate.
  - intros H. apply bind_cut_inv in H as [H | (item & _ & H)].
    + exact (get_nested_data_not_cut _ _ H).
    + destruct item; exact (IH _ _ _ H).
Qed.

Lemma flatten_for_segments n keys flat nested go_deep flat' nested' go_deep' :
  segments n keys ->
  segments (S n) nested ->
  (go_deep = true -> n < depth doc) ->
  flatten_for doc keys flat nested go_deep = Ok (flat', nested', go_deep') ->
  segments (S n) nested' /\ (go_deep' = true -> n < depth doc).
Proof.
  revert flat nested go_deep.
  induction keys as [| key keys IH]; intros flat nested go_deep Hk Hn Hg; simpl.
  - intros [= <- <- <-]. split; assumption.
  - intros H. apply bind_ok_inv in H as (item & Hitem & H).
    apply Forall_cons_1 in Hk as [Hkey Hk].
    destruct item as [| b | z | | s | l | d];
      try exact (IH _ _ _ Hk Hn Hg H).
    apply (IH _ _ _ Hk) in H; [exact H | |].
    + apply Forall_app. split; [exact Hn |].
      apply List.Forall_forall. intros k Hin.
      apply in_map_iff in Hin as (ele & <- & _).
      rewrite split_dot_dotted, length_app.
      pose proof (split_dot_length ele). lia.
    + intros _. apply get_nested_data_depth in Hitem. lia.
Qed.

Lemma flatten_while_not_cut fuel n keys flat :
  1 <= fuel ->
  depth doc < n + fuel ->
  segments n keys ->
  flatten_while fuel doc keys flat <> OutOfFuel.
Proof.
  revert n keys flat.
  induction fuel as [| fuel IH]; intros n keys flat Hfuel Hdepth Hk; [lia |].
  simpl. intros H.
  apply bind_cut_inv in H as [H | ([[flat' nested'] go_deep'] & Hfor & H)].
  - exact (flatten_for_not_cut _ _ _ _ H).
  - destruct go_deep'; [| discriminate].
    apply (flatten_for_segments n) in Hfor as [Hn Hd];
      [| exact Hk | constructor | discriminate].
    specialize (Hd eq_refl).
    apply (IH (S n) nested' flat'); [lia | lia | exact Hn | exact H].
Qed.

End FlattenTermination.

(** The fuel of [_flatten_dict] is never used up: the flattener returns or
    raises on every input. *)
Lemma flatten_dict_terminates (doc : value) : _flatten_dict doc <> OutOfFuel.
Proof.
  destruct doc as [| b | z | | s | l | d]; try discriminate.
  unfold _flatten_dict.
  apply (flatten_while_not_cut (VDict d) _ 1).
  - simpl. lia.
  - simpl. lia.
  - apply List.Forall_forall. intros k _. apply split_dot_length.
Qed.

(** ** The flattened document holds no dictionary *)

Lemma dict_set_no_dict (key : string) (item : value) (d : dict) :
  is_dict item = false -> no_dict_value d -> no_dict_value (dict_set key item d).
Proof.
  intros Hitem. induction d as [| [k x] d IH]; simpl; intros Hd.
  - constructor; [exact Hitem | constructor].
  - apply Forall_cons_1 in Hd as [Hx Hd].
    destruct (String.eqb k key).
    + constructor; [exact Hitem | exact Hd].
    + constructor; [exact Hx | exact (IH Hd)].
Qed.

Lemma flatten_for_no_dict doc keys flat nested go_deep flat' nested' go_deep' :
  no_dict_value flat ->
  flatten_for doc keys flat nested go_deep = Ok (flat', nested', go_deep') ->
  no_dict_value flat'.
Proof.
  revert flat nested go_deep.
  induction keys as [| key keys IH]; intros flat nested go_deep Hflat; simpl.
  - intros [= <- <- <-]. exact Hflat.
  - intros H. apply bind_ok_inv in H as (item & _ & H).
    destruct item; try (apply IH in H; [exact H | apply dict_set_no_dict; auto]).
    apply IH in H; [exact H | exact Hflat].
Qed.

Lemma flatten_while_no_dict fuel doc keys flat flat' :
  no_dict_value flat ->
  flatten_while fuel doc keys flat = Ok flat' ->
  no_dict_value flat'.
Proof.
  revert keys flat.
  induction fuel as [| fuel IH]; intros keys flat Hflat; simpl; [discriminate |].
  intros H. apply bind_ok_inv in H as ([[flat1 nested1] go1] & Hfor & H).
  apply flatten_for_no_dict in Hfor; [| exact Hflat].
  destruct go1.
  - exact (IH _ _ Hfor H).
  - injection H as <-. exact Hfor.
Qed.

Lemma flatten_dict_no_dict (doc : value) (flat : dict) :
  _flatten_dict doc = Ok flat -> no_dict_value flat.
Proof.
  destruct doc; try discriminate.
  unfold _flatten_dict. apply flatten_while_no_dict. constructor.
Qed.

(** ** The flattener, level by level *)

Lemma dict_update_app (d l1 l2 : dict) :
  dict_update d (l1 ++ l2) = dict_update (dict_update d l1) l2.
Proof. apply fold_left_app. Qed.

Lemma flatten_for_frontier doc (F : frontier) flat nested go_deep :
  resolves doc F ->
  flatten_for doc (map fst F) flat nested go_deep =
  Ok (dict_update flat (emitted F), nested ++ map fst (children F),
      go_deep || has_dict F).
Proof.
  unfold emitted, children, has_dict.
  revert flat nested go_deep.
  induction F as [| [k v] F IH]; intros flat nested go_deep Hres; simpl.
  - rewrite List.app_nil_r, orb_false_r. reflexivity.
  - apply Forall_cons_1 in Hres as [Hk Hres]. simpl in Hk. rewrite Hk. simpl.
    destruct v as [| b | z | | s | l | d]; simpl;
      try (rewrite (IH _ _ _ Hres); reflexivity).
    rewrite (IH _ _ _ Hres).
    unfold children_of at 2. simpl.
    rewrite List.map_app, List.map_map, List.app_assoc. simpl.
    unfold dict_keys. rewrite List.map_map, orb_true_r. reflexivity.
Qed.

Lemma levels_nil (fuel : nat) : levels fuel [] = [].
Proof. induction fuel as [| fuel IH]; simpl; [reflexivity | exact IH]. Qed.

Lemma children_no_dict (F : frontier) : has_dict F = false -> children F = [].
Proof.
  unfold has_dict, children.
  induction F as [| [k v] F IH]; simpl; intros H; [reflexivity |].
  apply orb_false_iff in H as [Hv HF].
  rewrite (IH HF). destruct v; try discriminate; reflexivity.
Qed.

Lemma has_dict_depth (F : frontier) : has_dict F = true -> 1 <= frontier_depth F.
Proof.
  unfold has_dict.
  induction F as [| [k v] F IH]; simpl; intros H; [discriminate |].
  apply orb_true_iff in H as [Hv | HF].
  - destruct v; try discriminate. simpl. lia.
  - specialize (IH HF). lia.
Qed.

Lemma in_dict_depth (k : string) (x : value) (d : dict) :
  In (k, x) d -> depth x < depth (VDict d).
Proof.
  induction d as [| [k' y] d IH]; simpl; intros H; [contradiction |].
  destruct H as [[= -> ->] | H].
  - lia.
  - specialize (IH H). simpl in IH. lia.
Qed.

Lemma children_of_depth (kv : string * value) :
  S (frontier_depth (children_of kv)) <= depth (snd kv) \/ children_of kv = [].
Proof.
  destruct kv as [k v]. unfold children_of. simpl.
  destruct v as [| b | z | | s | l | d]; try (right; reflexivity).
  left. induction d as [| [e x] d IH]; simpl in *; lia.
Qed.

Lemma frontier_depth_app (F G : frontier) :
  frontier_depth (F ++ G) = Nat.max (frontier_depth F) (frontier_depth G).
Proof. induction F as [| kv F IH]; simpl; [reflexivity | rewrite IH; lia]. Qed.

Lemma children_depth (F : frontier) :
  frontier_depth (children F) <= pred (frontier_depth F).
Proof.
  unfold children.
  induction F as [| kv F IH]; simpl; [lia |].
  rewrite frontier_depth_app.
  destruct (children_of_depth kv) as [H | H]; [lia |].
  rewrite H. simpl. lia.
Qed.

Lemma distinct_not_in (k : string) (l : list string) :
  existsb (String.eqb k) l = false -> ~ In k l.
Proof.
  induction l as [| k' l IH]; simpl; intros H; [tauto |].
  apply orb_false_iff in H as [Hk Hl].
  intros [-> | Hin]; [| exact (IH Hl Hin)].
  rewrite String.eqb_refl in Hk. discriminate.
Qed.

Lemma distinct_NoDup (l : list string) : distinct l = true -> List.NoDup l.
Proof.
  induction l as [| k l IH]; simpl; intros H; [constructor |].
  apply andb_true_iff in H as [Hk Hl].
  apply negb_true_iff in Hk.
  constructor; [apply distinct_not_in; exact Hk | exact (IH Hl)].
Qed.

Lemma dict_get_in (e : string) (x : value) (d : dict) :
  distinct (map fst d) = true -> In (e, x) d -> dict_get e d = Some x.
Proof.
  induction d as [| [k y] d IH]; simpl; intros Hd Hin; [contradiction |].
  apply andb_true_iff in Hd as [Hk Hd].
  apply negb_true_iff, distinct_not_in in Hk.
  destruct Hin as [[= -> ->] | Hin].
  - rewrite String.eqb_refl. reflexivity.
  - destruct (String.eqb k e) eqn:Heq.
    + apply String.eqb_eq in Heq as ->.
      exfalso. apply Hk. apply in_map_iff. exists (e, x). split; [reflexivity | exact Hin].
    + exact (IH Hd Hin).
Qed.

Lemma well_formed_dict_inv (d : dict) :
  well_formed (VDict d) ->
  distinct (map fst d) = true /\
  Forall (fun kv => has_dot (fst kv) = false /\ well_formed (snd kv)) d.
Proof.
  unfold well_formed. simpl. intros [Hu Hp].
  apply andb_true_iff in Hu as [Hd Hu].
  split; [exact Hd |].
  rewrite forallb_forall in Hu, Hp.
  apply List.Forall_forall. intros kv Hin.
  specialize (Hu _ Hin). specialize (Hp _ Hin).
  apply andb_true_iff in Hp as [Hdot Hp].
  apply negb_true_iff in Hdot. auto.
Qed.

Lemma well_formed_leaf (v : value) : is_dict v = false -> well_formed v.
Proof. destruct v; try discriminate; intros _; split; reflexivity. Qed.

Lemma children_well_formed (F : frontier) :
  well_formed_frontier F -> well_formed_frontier (children F).
Proof.
  unfold well_formed_frontier, children. intros HF.
  apply List.Forall_forall. intros [key x] Hin.
  apply in_flat_map in Hin as ([k v] & Hkv & Hin).
  rewrite List.Forall_forall in HF. specialize (HF _ Hkv). simpl in HF.
  unfold children_of in Hin. simpl in Hin.
  destruct v as [| b | z | | s | l | d]; try contradiction.
  apply in_map_iff in Hin as ([e y] & [= <- <-] & Hin).
  apply well_formed_dict_inv in HF as [_ HF].
  rewrite List.Forall_forall in HF. exact (proj2 (HF _ Hin)).
Qed.

Lemma children_resolves (doc : value) (F : frontier) :
  resolves doc F -> well_formed_frontier F -> resolves doc (children F).
Proof.
  unfold resolves, well_formed_frontier, children. intros Hres HF.
  apply List.Forall_forall. intros [key x] Hin.
  apply in_flat_map in Hin as ([k v] & Hkv & Hin).
  rewrite List.Forall_forall in HF, Hres.
  specialize (HF _ Hkv). specialize (Hres _ Hkv). simpl in HF, Hres.
  unfold children_of in Hin. simpl in Hin.
  destruct v as [| b | z | | s | l | d]; try contradiction.
  apply in_map_iff in Hin as ([e y] & [= <- <-] & Hin).
  apply well_formed_dict_inv in HF as [Hd HF].
  rewrite List.Forall_forall in HF. destruct (HF _ Hin) as [Hdot _].
  simpl in *.
  rewrite split_dot_dotted, get_nested_data_app, Hres. simpl.
  rewrite (split_dot_plain _ Hdot). simpl.
  rewrite (dict_get_in _ _ _ Hd Hin). reflexivity.
Qed.

Lemma flatten_while_levels (doc : value) (fuel : nat) (F : frontier) (flat : dict) :
  resolves doc F ->
  well_formed_frontier F ->
  frontier_depth F < fuel ->
  flatten_while fuel doc (map fst F) flat = Ok (dict_update flat (levels fuel F)).
Proof.
  revert F flat.
  induction fuel as [| fuel IH]; intros F flat Hres HF Hdepth; [lia |].
  simpl. rewrite (flatten_for_frontier _ _ _ _ _ Hres). simpl.
  destruct (has_dict F) eqn:Hdict.
  - pose proof (has_dict_depth _ Hdict).
    pose proof (children_depth F).
    rewrite IH.
    + rewrite dict_update_app. reflexivity.
    + apply children_resolves; assumption.
    + apply children_well_formed; assumption.
    + lia.
  - rewrite (children_no_dict _ Hdict), levels_nil, List.app_nil_r. reflexivity.
Qed.

(** ** The levels of the flattener are the leaves of the document *)

Lemma flat_map_through_map {A B C : Type} (f : B -> list C) (g : A -> B)
    (l : list A) :
  flat_map f (map g l) = flat_map (fun a => f (g a)) l.
Proof. induction l as [| a l IH]; simpl; [reflexivity | rewrite IH; reflexivity]. Qed.

Lemma leaves_step (F : frontier) :
  Permutation (leaves F) (emitted F ++ leaves (children F)).
Proof.
  unfold leaves, emitted, children.
  induction F as [| [k v] F IH]; simpl; [constructor |].
  destruct v as [| b | z | | s | l | d]; simpl;
    try (apply perm_skip; exact IH).
  unfold children_of at 1. simpl.
  rewrite List.flat_map_app, flat_map_through_map. simpl.
  etransitivity; [apply Permutation_app_head; exact IH |].
  apply Permutation_app_swap_app.
Qed.

Lemma levels_leaves (fuel : nat) (F : frontier) :
  frontier_depth F < fuel -> Permutation (levels fuel F) (leaves F).
Proof.
  revert F. induction fuel as [| fuel IH]; intros F Hdepth; [lia |].
  simpl. symmetry. etransitivity; [apply leaves_step |].
  apply Permutation_app_head. symmetry.
  destruct (has_dict F) eqn:Hdict.
  - apply IH.
    pose proof (has_dict_depth _ Hdict). pose proof (children_depth F). lia.
  - rewrite (children_no_dict _ Hdict), levels_nil. constructor.
Qed.

(** ** Dotted paths of different leaves are different *)

Lemma string_append_assoc (a b c : string) :
  ((a ++ b) ++ c)%string = (a ++ (b ++ c))%string.
Proof. induction a as [| x a IH]; simpl; [reflexivity | rewrite IH; reflexivity]. Qed.

Lemma string_append_cancel (p a b : string) :
  (p ++ a)%string = (p ++ b)%string -> a = b.
Proof. induction p as [| x p IH]; simpl; intros H; [exact H | injection H; auto]. Qed.

Lemma plain_prefix_eq (e1 e2 s1 s2 : string) :
  has_dot e1 = false -> has_dot e2 = false ->
  path_tail s1 -> path_tail s2 ->
  (e1 ++ s1)%string = (e2 ++ s2)%string -> e1 = e2.
Proof.
  revert e2.
  induction e1 as [| c e1 IH]; intros e2 H1 H2 T1 T2 Heq.
  - destruct e2 as [| c e2]; [reflexivity |]. simpl in *.
    apply orb_false_iff in H2 as [Hc _].
    destruct T1 as [-> | (t & ->)]; [discriminate |].
    injection Heq as <- _. discriminate.
  - destruct e2 as [| c' e2]; simpl in *.
    + apply orb_false_iff in H1 as [Hc _].
      destruct T2 as [-> | (t & ->)]; [discriminate |].
      injection Heq as -> _. discriminate.
    + apply orb_false_iff in H1 as [_ H1].
      apply orb_false_iff in H2 as [_ H2].
      injection Heq as -> Heq.
      f_equal. exact (IH _ H1 H2 T1 T2 Heq).
Qed.

Lemma leaves_at_keys (v : value) :
  forall p key y, In (key, y) (leaves_at p v) ->
  exists s, key = (p ++ s)%string /\ path_tail s.
Proof.
  induction v as [v Hv | d IH] using value_dict_ind; intros p key y Hin.
  - assert (leaves_at p v = [(p, v)]) as E by (destruct v; try discriminate; reflexivity).
    rewrite E in Hin. destruct Hin as [[= <- <-] | []].
    exists EmptyString. split; [| left; reflexivity].
    clear. induction p as [| c p IH]; simpl; [reflexivity | rewrite <- IH; reflexivity].
  - simpl in Hin. apply in_flat_map in Hin as ([e x] & Hex & Hin).
    rewrite List.Forall_forall in IH.
    destruct (IH _ Hex _ _ _ Hin) as (s & -> & _). simpl.
    exists (String "." (e ++ s)). split; [| right; eexists; reflexivity].
    unfold dotted. rewrite !string_append_assoc. reflexivity.
Qed.

Lemma siblings_NoDup (q : string) (d : dict) :
  distinct (map fst d) = true ->
  Forall (fun kv => has_dot (fst kv) = false) d ->
  Forall (fun kv => forall p, List.NoDup (map fst (leaves_at p (snd kv)))) d ->
  List.NoDup (map fst (flat_map (fun kv => leaves_at (q ++ fst kv) (snd kv)) d)).
Proof.
  induction d as [| [e x] d IH]; simpl; intros Hd Hdot Hsub; [constructor |].
  apply andb_true_iff in Hd as [He Hd].
  apply negb_true_iff, distinct_not_in in He.
  apply Forall_cons_1 in Hdot as [Hedot Hdot].
  apply Forall_cons_1 in Hsub as [Hx Hsub].
  simpl in *. rewrite List.map_app.
  apply List.NoDup_app; [apply Hx | exact (IH Hd Hdot Hsub) |].
  intros key Hin1 Hin2.
  apply in_map_iff in Hin1 as ([key1 y1] & <- & Hin1).
  apply in_map_iff in Hin2 as ([key2 y2] & Hkey & Hin2). simpl in Hkey. subst key2.
  apply in_flat_map in Hin2 as ([e' x'] & Hex' & Hin2). simpl in Hin2.
  apply leaves_at_keys in Hin1 as (s1 & E1 & T1).
  apply leaves_at_keys in Hin2 as (s2 & E2 & T2).
  rewrite E1, !string_append_assoc in E2.
  apply string_append_cancel in E2.
  rewrite List.Forall_forall in Hdot. pose proof (Hdot _ Hex') as Hdot'. simpl in Hdot'.
  symmetry in E2. apply plain_prefix_eq in E2; try assumption. subst e'.
  apply He. apply in_map_iff. exists (e, x'). split; [reflexivity | exact Hex'].
Qed.

Lemma leaves_at_NoDup (v : value) :
  well_formed v -> forall p, List.NoDup (map fst (leaves_at p v)).
Proof.
  induction v as [v Hv | d IH] using value_dict_ind; intros Hwf p.
  - assert (leaves_at p v = [(p, v)]) as E by (destruct v; try discriminate; reflexivity).
    rewrite E. simpl. constructor; [simpl; tauto | constructor].
  - apply well_formed_dict_inv in Hwf as [Hd Hwf]. simpl.
    rewrite (flat_map_ext _ (fun kv => leaves_at ((p ++ ".") ++ fst kv) (snd kv))).
    + apply siblings_NoDup; [exact Hd | |].
      * eapply Forall_impl; [exact Hwf |]. intros kv [H _]. exact H.
      * rewrite List.Forall_forall in IH, Hwf. apply List.Forall_forall.
        intros kv Hin. apply (IH _ Hin). exact (proj2 (Hwf _ Hin)).
    + intros [e x]. unfold dotted. simpl. rewrite string_append_assoc. reflexivity.
Qed.

Lemma leaves_NoDup (d : dict) :
  well_formed (VDict d) -> List.NoDup (map fst (leaves d)).
Proof.
  intros Hwf. apply well_formed_dict_inv in Hwf as [Hd Hwf].
  apply (siblings_NoDup EmptyString d Hd).
  - eapply Forall_impl; [exact Hwf |]. intros kv [H _]. exact H.
  - rewrite List.Forall_forall in Hwf. apply List.Forall_forall.
    intros kv Hin. apply leaves_at_NoDup. exact (proj2 (Hwf _ Hin)).
Qed.

(** ** Assigning fresh keys appends *)

Lemma dict_set_fresh (key : string) (v : value) (d : dict) :
  ~ In key (map fst d) -> dict_set key v d = d ++ [(key, v)].
Proof.
  induction d as [| [k x] d IH]; simpl; intros Hin; [reflexivity |].
  destruct (String.eqb k key) eqn:Heq.
  - apply String.eqb_eq in Heq. tauto.
  - rewrite IH; [reflexivity | tauto].
Qed.

Lemma dict_update_fresh (d items : dict) :
  List.NoDup (map fst (d ++ items)) -> dict_update d items = d ++ items.
Proof.
  revert d. induction items as [| [k v] items IH]; intros d Hnd; simpl.
  - rewrite List.app_nil_r. reflexivity.
  - unfold dict_update in *. simpl.
    assert (d ++ (k, v) :: items = (d ++ [(k, v)]) ++ items) as E
      by (rewrite <- List.app_assoc; reflexivity).
    rewrite E in Hnd |- *.
    rewrite dict_set_fresh.
    + apply IH. exact Hnd.
    + rewrite !List.map_app in Hnd. apply NoDup_app_remove_r in Hnd.
      simpl in Hnd. apply NoDup_remove_2 in Hnd.
      rewrite List.app_nil_r in Hnd. exact Hnd.
Qed.

(** ** The flattener on well-formed documents *)

Lemma depth_dict (d : dict) : depth (VDict d) = S (frontier_depth d).
Proof.
  simpl. f_equal. induction d as [| [k x] d IH]; simpl; [reflexivity |].
  rewrite IH. reflexivity.
Qed.

Lemma top_level_resolves (d : dict) :
  well_formed (VDict d) -> resolves (VDict d) d.
Proof.
  intros Hwf. apply well_formed_dict_inv in Hwf as [Hd Hwf].
  rewrite List.Forall_forall in Hwf.
  apply List.Forall_forall. intros [k x] Hin.
  destruct (Hwf _ Hin) as [Hdot _]. simpl in *.
  rewrite (split_dot_plain _ Hdot). simpl.
  rewrite (dict_get_in _ _ _ Hd Hin). reflexivity.
Qed.

Lemma top_level_well_formed (d : dict) :
  well_formed (VDict d) -> well_formed_frontier d.
Proof.
  intros Hwf. apply well_formed_dict_inv in Hwf as [_ Hwf].
  eapply Forall_impl; [exact Hwf |]. intros kv [_ H]. exact H.
Qed.

Lemma flatten_dict_levels (d : dict) :
  well_formed (VDict d) ->
  _flatten_dict (VDict d) = Ok (levels (depth (VDict d)) d).
Proof.
  intros Hwf. unfold _flatten_dict, dict_keys.
  assert (frontier_depth d < depth (VDict d)) as Hdepth
    by (rewrite depth_dict; lia).
  rewrite flatten_while_levels;
    [| apply top_level_resolves; exact Hwf
     | apply top_level_well_formed; exact Hwf
     | exact Hdepth].
  f_equal. apply (dict_update_fresh []).
  change (List.NoDup (map fst (levels (depth (VDict d)) d))).
  apply (Permutation_NoDup (l := map fst (leaves d))).
  - apply Permutation_map. symmetry. apply levels_leaves. exact Hdepth.
  - apply leaves_NoDup. exact Hwf.
Qed.

(** C3, as amended: for a document whose dictionaries have unique keys
    without a ["."], the flattener returns a mapping that holds no
    dictionary and whose entries are, up to order, the leaves of the
    document under their dotted paths; so the values are the same multiset.
    Whatever the document, a mapping the flattener returns holds no
    dictionary. *)
Theorem flatten_dict_leaves (d : dict) :
  (forall doc flat, _flatten_dict doc = Ok flat -> no_dict_value flat) /\
  (well_formed (VDict d) ->
   exists flat,
     _flatten_dict (VDict d) = Ok flat /\
     no_dict_value flat /\
     Permutation flat (leaves d) /\
     Permutation (map snd flat) (map snd (leaves d))).
Proof.
  split; [exact flatten_dict_no_dict |].
  intros Hwf. exists (levels (depth (VDict d)) d).
  pose proof (flatten_dict_levels d Hwf) as Hflat.
  assert (Permutation (levels (depth (VDict d)) d) (leaves d)) as Hperm
    by (apply levels_leaves; rewrite depth_dict; lia).
  split; [exact Hflat |].
  split; [exact (flatten_dict_no_dict _ _ Hflat) |].
  split; [exact Hperm | apply Permutation_map; exact Hperm].
Qed.

Lemma flatten_dict_leaves_witness :
  well_formed (VDict nested_example) /\
  exists flat,
    _flatten_dict (VDict nested_example) = Ok flat /\
    no_dict_value flat /\
    Permutation flat (leaves nested_example) /\
    Permutation (map snd flat) (map snd (leaves nested_example)).
Proof.
  assert (well_formed (VDict nested_example)) as Hwf
    by (split; vm_compute; reflexivity).
  split; [exact Hwf |].
  exact (proj2 (flatten_dict_leaves nested_example) Hwf).
Defined.

(** C3 as stated fails: a key with a ["."] is resolved as a path, so the
    value under ["a.b"] is replaced by the one nested under ["a"], ["b"]. *)
Lemma flatten_dict_leaves_counterexample :
  let d := [("a.b", VNum 1); ("a", VDict [("b", VNum 2)])] in
  unique_keys (VDict d) = true /\
  _flatten_dict (VDict d) = Ok [("a.b", VNum 2)] /\
  ~ Permutation (map snd [("a.b", VNum 2)]) (map snd (leaves d)).
Proof.
  simpl. split; [reflexivity |]. split; [reflexivity |].
  intros H. apply Permutation_length in H. discriminate.
Qed.

(** C7, as amended: an already-flat mapping with unique keys, none with a
    ["."], is returned as it is, key order included. *)
Theorem flatten_dict_flat (d : dict) :
  distinct (map fst d) = true ->
  flat_dict d = true ->
  forallb (fun kv => negb (has_dot (fst kv))) d = true ->
  _flatten_dict (VDict d) = Ok d.
Proof.
  intros Hd Hflat Hdot.
  unfold flat_dict in Hflat. rewrite forallb_forall in Hflat, Hdot.
  assert (well_formed (VDict d)) as Hwf.
  { split; simpl.
    - rewrite Hd. simpl. apply forallb_forall. intros kv Hin.
      specialize (Hflat _ Hin). destruct (snd kv); try discriminate; reflexivity.
    - apply forallb_forall. intros kv Hin.
      rewrite (Hdot _ Hin). specialize (Hflat _ Hin).
      destruct (snd kv); try discriminate; reflexivity. }
  rewrite (flatten_dict_levels d Hwf), depth_dict. simpl.
  assert (emitted d = d) as ->.
  { unfold emitted. clear Hd Hdot Hwf.
    induction d as [| kv d IH]; simpl; [reflexivity |].
    rewrite (Hflat kv (or_introl eq_refl)).
    f_equal. apply IH. intros x Hx. apply Hflat. right. exact Hx. }
  rewrite children_no_dict, levels_nil, List.app_nil_r; [reflexivity |].
  unfold has_dict. clear Hd Hdot Hwf.
  induction d as [| kv d IH]; simpl; [reflexivity |].
  pose proof (Hflat kv (or_introl eq_refl)) as Hkv.
  apply negb_true_iff in Hkv. rewrite Hkv. simpl.
  apply IH. intros x Hx. apply Hflat. right. exact Hx.
Qed.

Lemma flatten_dict_flat_witness :
  _flatten_dict (VDict [("_id", VStr "A1"); ("tags", VList [VNum 1]); ("n", VNull)])
  = Ok [("_id", VStr "A1"); ("tags", VList [VNum 1]); ("n", VNull)].
Proof. apply flatten_dict_flat; reflexivity. Defined.

(** C7 as stated fails: a flat mapping with a ["."] in a key is not
    returned; the key is split and its first segment is missing. *)
Lemma flatten_dict_flat_counterexample :
  let d := [("a.b", VNum 1)] in
  distinct (map fst d) = true /\
  flat_dict d = true /\
  _flatten_dict (VDict d) = Raise KeyError /\
  _flatten_dict (VDict d) <> Ok d.
Proof. simpl. repeat split; try reflexivity. discriminate. Qed.

(** ** The scan of [idxmax] *)

Section Scan.

Variable m : row -> bool.
Variable g : row -> cell.




End Scan.

(** ** The joiner selects the latest matching row *)






Lemma dict_get_set_eq (key : string) (v : value) (d : dict) :
  dict_get key (dict_set key v d) = Some v.
Proof.
  induction d as [| [k x] d IH]; simpl.
  - rewrite String.eqb_refl. reflexivity.
  - destruct (String.eqb k key) eqn:Heq; simpl; rewrite Heq; [reflexivity | exact IH].
Qed.

Lemma objects_write_eq (l : nat) (d : dict) (h : store) :
  objects (write l d h) l = d.
Proof. simpl. rewrite Nat.eqb_refl. reflexivity. Qed.

Lemma objects_write_ne (l l' : nat) (d : dict) (h : store) :
  l' <> l -> objects (write l d h) l' = objects h l'.
Proof. intros H. simpl. apply Nat.eqb_neq in H. rewrite H. reflexivity. Qed.

(** ** The joiner updates its argument *)

(** C6, as amended: when the joiner succeeds it returns the reference it
    was given, the dictionary behind that reference is the previous one
    updated with the normalized columns of the selected row, no other
    dictionary of the store changes and none is added. The table is a
    value that the joiner only reads. *)
Theorem joiner_updates_in_place (h : store) (doc : nat) (excel_data : DataFrame)
    (r : nat) (h' : store) :
  _match_by_review_status doc excel_data h = Ok (r, h') ->
  r = doc /\
  (exists series,
      matching_series (objects h doc) excel_data = Ok series /\
      objects h' doc = dict_update (objects h doc) (normalized_columns series)) /\
  (forall l, l <> doc -> objects h' l = objects h l) /\
  next_loc h' = next_loc h.
Proof.
  unfold _match_by_review_status. intros H.
  apply bind_ok_inv in H as (series & Hseries & H).
  injection H as <- <-.
  split; [reflexivity |]. split; [| split].
  - exists series. split; [exact Hseries | apply objects_write_eq].
  - intros l Hl. apply objects_write_ne. exact Hl.
  - reflexivity.
Qed.

Lemma joiner_updates_in_place_witness :
  exists h',
    _match_by_review_status 0 review_table example_store = Ok (0, h') /\
    (exists series,
        matching_series (objects example_store 0) review_table = Ok series /\
        objects h' 0 =
        dict_update (objects example_store 0) (normalized_columns series)) /\
    (forall l, l <> 0 -> objects h' l = objects example_store l) /\
    next_loc h' = next_loc example_store.
Proof.
  eexists. split; [reflexivity |].
  eapply (joiner_updates_in_place example_store 0 review_table 0).
  reflexivity.
Defined.

(** C6 as stated fails: the mapping returned is the input document itself,
    which has changed and now holds the merged keys. *)
Lemma joiner_updates_in_place_counterexample :
  exists h',
    _match_by_review_status 0 review_table example_store = Ok (0, h') /\
    next_loc h' = next_loc example_store /\
    objects example_store 0 = [("_id", VStr "A1"); ("headline.main", VStr "t")] /\
    objects h' 0 <> objects example_store 0 /\
    dict_get "status" (objects example_store 0) = None /\
    dict_get "status" (objects h' 0) = Some (VStr "approved").
Proof.
  eexists. split; [reflexivity |].
  repeat split; try reflexivity. discriminate.
Qed.

(** ** The reconciliation generator *)

Lemma grows_refl (h : store) : grows h h [].
Proof.
  split; [simpl; lia |]. split; [reflexivity |].
  intros i r H. destruct i; discriminate.
Qed.

Lemma grows_trans (h h1 h2 : store) (rs1 rs2 : list dict) :
  grows h h1 rs1 -> grows h1 h2 rs2 -> grows h h2 (rs1 ++ rs2).
Proof.
  intros (N1 & O1 & R1) (N2 & O2 & R2).
  split; [rewrite length_app; lia |]. split.
  - intros l Hl. rewrite O2 by lia. apply O1. exact Hl.
  - intros i r Hi.
    destruct (Nat.lt_ge_cases i (length rs1)) as [Hlt | Hge].
    + rewrite lookup_app_l in Hi by exact Hlt.
      rewrite O2 by lia. apply R1. exact Hi.
    + rewrite lookup_app_r in Hi by exact Hge.
      apply R2 in Hi. rewrite N1 in Hi.
      replace (next_loc h + i) with (next_loc h + length rs1 + (i - length rs1)) by lia.
      exact Hi.
Qed.

Lemma reconciled_inv (doc : value) (t : DataFrame) (r : dict) :
  reconciled doc t = Ok r ->
  exists flat series,
    _flatten_dict doc = Ok flat /\
    matching_series flat t = Ok series /\
    r = dict_update flat (normalized_columns series).
Proof.
  unfold reconciled. intros H.
  apply bind_ok_inv in H as (flat & Hflat & H).
  apply bind_ok_inv in H as ([l h'] & Hjoin & H).
  injection H as <-.
  unfold _match_by_review_status in Hjoin.
  apply bind_ok_inv in Hjoin as (series & Hseries & Hjoin).
  injection Hjoin as <- <-.
  exists flat, series. split; [exact Hflat |]. split; [exact Hseries |].
  reflexivity.
Qed.

Lemma docs_next_ok (doc : value) (rest : list value) (t : DataFrame)
    (h : store) (r : dict) :
  reconciled doc t = Ok r ->
  exists h',
    docs_next {| pending := doc :: rest; table := t |} h =
    (Ok (Some (next_loc h)), {| pending := rest; table := t |}, h') /\
    grows h h' [r].
Proof.
  intros H. apply reconciled_inv in H as (flat & series & Hflat & Hseries & ->).
  unfold docs_next. simpl. rewrite Hflat. simpl.
  unfold _match_by_review_status. simpl.
  rewrite Nat.eqb_refl, Hseries. simpl.
  eexists. split; [reflexivity |].
  split; [simpl; lia |]. split.
  - intros l Hl. simpl.
    assert (Nat.eqb l (next_loc h) = false) as -> by (apply Nat.eqb_neq; lia).
    reflexivity.
  - intros i r' Hi. destruct i as [| i]; [| destruct i; discriminate].
    injection Hi as <-. simpl.
    rewrite Nat.add_0_r, Nat.eqb_refl. reflexivity.
Qed.

Lemma drain_all (t : DataFrame) (docs : list value) :
  forall (rs : list dict) (h : store) (pulls : nat),
    reconciles t docs rs ->
    length docs < pulls ->
    exists h',
      drain pulls {| pending := docs; table := t |} h =
      (seq (next_loc h) (length docs), Ok (), {| pending := []; table := t |}, h') /\
      grows h h' rs.
Proof.
  induction docs as [| doc docs IH]; intros rs h pulls Hrs Hpulls.
  - inversion Hrs; subst. destruct pulls as [| pulls]; [simpl in Hpulls; lia |].
    exists h. split; [reflexivity | apply grows_refl].
  - inversion Hrs as [| ? r ? rs' Hr Hrs']; subst.
    destruct pulls as [| pulls]; [lia |]. simpl in Hpulls.
    destruct (docs_next_ok doc docs t h r Hr) as (h1 & Hnext & Hg1).
    destruct (IH rs' h1 pulls Hrs' ltac:(lia)) as (h2 & Hdrain & Hg2).
    exists h2. split.
    + simpl drain. rewrite Hnext, Hdrain.
      destruct Hg1 as (N1 & _). simpl in N1.
      replace (next_loc h1) with (S (next_loc h)) by lia. reflexivity.
    + exact (grows_trans _ _ _ [r] rs' Hg1 Hg2).
Qed.

(** C9, as amended: when the flattener and then the joiner succeed on
    every document, the generator yields one record per document, in the order of the
    collection, then stops; the record yielded for the i-th document is the
    result of the flattener and then the joiner on that document. *)
Theorem docs_generator_reconciles (t : DataFrame) (docs : list value)
    (rs : list dict) (h : store) (pulls : nat) :
  reconciles t docs rs ->
  length docs < pulls ->
  exists yielded h',
    drain pulls {| pending := docs; table := t |} h =
    (yielded, Ok (), {| pending := []; table := t |}, h') /\
    length yielded = length docs /\
    (forall i doc, docs !! i = Some doc ->
       exists l, yielded !! i = Some l /\ reconciled doc t = Ok (objects h' l)) /\
    (forall l, l < next_loc h -> objects h' l = objects h l).
Proof.
  intros Hrs Hpulls.
  destruct (drain_all t docs rs h pulls Hrs Hpulls) as (h' & Hdrain & Hg).
  exists (seq (next_loc h) (length docs)), h'.
  split; [exact Hdrain |]. split; [apply length_seq |].
  destruct Hg as (_ & Hold & Hnew). split; [| exact Hold].
  intros i doc Hi.
  exists (next_loc h + i). split.
  - apply lookup_seq. split; [reflexivity |]. eapply lookup_lt_Some. exact Hi.
  - destruct (Forall2_lookup_l _ _ _ _ _ Hrs Hi) as (r & Hr & Hrec).
    rewrite (Hnew _ _ Hr). exact Hrec.
Qed.

Lemma docs_generator_reconciles_witness :
  exists yielded h',
    drain 3 {| pending := example_docs; table := review_table |} empty_store =
    (yielded, Ok (), {| pending := []; table := review_table |}, h') /\
    length yielded = length example_docs /\
    (forall i doc, example_docs !! i = Some doc ->
       exists l, yielded !! i = Some l /\
                 reconciled doc review_table = Ok (objects h' l)) /\
    (forall l, l < next_loc empty_store -> objects h' l = objects empty_store l).
Proof.
  eapply (docs_generator_reconciles review_table example_docs).
  - constructor; [vm_compute; reflexivity |].
    constructor; [vm_compute; reflexivity | constructor].
  - simpl. lia.
Defined.

(** C9 as stated fails: of three documents the second has no row in the
    table; the generator yields the record of the first, raises
    [ValueError] at the second, and is finished: one record for three
    documents. *)
Lemma docs_generator_reconciles_counterexample :
  exists h',
    drain 4 {| pending := unmatched_docs; table := review_table |} empty_store =
    ([0], Raise ValueError, {| pending := []; table := review_table |}, h') /\
    length unmatched_docs = 3 /\
    reconciled (VDict [("_id", VStr "B7")]) review_table = Raise ValueError.
Proof. eexists. repeat split; reflexivity. Qed.

(** ** Batches *)

Lemma batch_for_spec (t : DataFrame) (a : option Namespace)
    (s : option (list string)) (n : nat) :
  forall docs rs h results,
    reconciles t docs rs ->
    exists h',
      batch_for n (source_with a s docs t) h results =
      (Ok (Nat.leb n (length docs),
           results ++ seq (next_loc h) (Nat.min n (length docs))),
       source_with a s (drop n docs) t, h') /\
      grows h h' (take n rs).
Proof.
  induction n as [| n IH]; intros docs rs h results Hrs.
  - exists h. split; [| apply grows_refl].
    simpl. rewrite List.app_nil_r. reflexivity.
  - destruct Hrs as [| doc r docs rs Hr Hrs].
    + exists h. split; [| apply grows_refl].
      simpl. rewrite List.app_nil_r. reflexivity.
    + destruct (docs_next_ok doc docs t h r Hr) as (h1 & Hnext & Hg1).
      destruct (IH docs rs h1 (results ++ [next_loc h]) Hrs) as (h2 & Hfor & Hg2).
      exists h2. split.
      * simpl batch_for. rewrite Hnext.
        change (set_docs (source_with a s (doc :: docs) t)
                  {| pending := docs; table := t |})
          with (source_with a s docs t).
        rewrite Hfor. destruct Hg1 as (N1 & _). simpl in N1.
        replace (next_loc h1) with (S (next_loc h)) by lia.
        simpl. rewrite <- List.app_assoc. reflexivity.
      * exact (grows_trans _ _ _ [r] (take n rs) Hg1 Hg2).
Qed.

Lemma iterate_S (pulls : nat) (env : Env) (b : batch_gen)
    (self : NYTimesSource) (h : store) :
  iterate (S pulls) env b self h =
  let '(r, b', self', h') := batch_next env b self h in
  match r with
  | Ok (Some batch) =>
      let '(rest, fin, self'', h'') := iterate pulls env b' self' h' in
      (batch :: rest, fin, self'', h'')
  | Ok None => ([], Ok (), self', h')
  | Raise e => ([], Raise e, self', h')
  | OutOfFuel => ([], OutOfFuel, self', h')
  end.
Proof. reflexivity. Qed.

Lemma batch_sizes_zero (B : nat) : batch_sizes B 0 = [].
Proof.
  unfold batch_sizes. rewrite Nat.Div0.div_0_l, Nat.Div0.mod_0_l. reflexivity.
Qed.

Lemma batch_sizes_small (B N : nat) : 0 < N -> N < B -> batch_sizes B N = [N].
Proof.
  intros H0 HB. unfold batch_sizes.
  rewrite Nat.div_small, Nat.mod_small by lia.
  destruct N; [lia | reflexivity].
Qed.

Lemma batch_sizes_step (B N : nat) :
  0 < B -> B <= N -> batch_sizes B N = B :: batch_sizes B (N - B).
Proof.
  intros H0 HB. unfold batch_sizes.
  assert (N / B = S ((N - B) / B)) as ->.
  { replace N with ((N - B) + 1 * B) at 1 by lia.
    rewrite Nat.div_add by lia. lia. }
  assert (N mod B = (N - B) mod B) as ->.
  { replace N with ((N - B) + 1 * B) at 1 by lia.
    apply Nat.Div0.mod_add. }
  reflexivity.
Qed.

Lemma iterate_running (env : Env) (t : DataFrame) (a : option Namespace)
    (s : option (list string)) (batch_size : Z) (B : nat) :
  Z.to_nat batch_size = B ->
  0 < B ->
  forall k docs rs h pulls,
    length docs < k ->
    reconciles t docs rs ->
    length docs / B + 2 <= pulls ->
    exists batches h',
      iterate pulls env (BatchYielded batch_size) (source_with a s docs t) h =
      (batches, Ok (), source_with a s [] t, h') /\
      grows h h' rs /\
      map length batches = batch_sizes B (length docs) /\
      concat batches = seq (next_loc h) (length docs).
Proof.
  intros HB Hpos.
  induction k as [| k IH]; intros docs rs h pulls Hk Hrs Hpulls.
  - lia.
  - destruct pulls as [| pulls]; [lia |].
    rewrite iterate_S. unfold batch_next, batch_loop. rewrite HB.
    destruct (batch_for_spec t a s B docs rs h [] Hrs) as (h1 & Hfor & Hg1).
    rewrite Hfor. simpl app.
    pose proof (Forall2_length _ _ _ Hrs) as Hlen.
    destruct (Nat.leb B (length docs)) eqn:Hle.
    + apply Nat.leb_le in Hle.
      rewrite Nat.min_l by exact Hle.
      destruct (IH (drop B docs) (drop B rs) h1 pulls) as (batches & h2 & Hit & Hg2 & Hsizes & Hcat).
      * rewrite length_drop. lia.
      * apply Forall2_drop. exact Hrs.
      * rewrite length_drop.
        replace (length docs) with ((length docs - B) + 1 * B) in Hpulls by lia.
        rewrite Nat.div_add in Hpulls by lia. lia.
      * rewrite Hit.
        exists (seq (next_loc h) B :: batches), h2.
        split; [reflexivity |]. split; [| split].
        -- rewrite <- (take_drop B rs). exact (grows_trans _ _ _ _ _ Hg1 Hg2).
        -- simpl. rewrite length_seq, Hsizes, length_drop.
           symmetry. apply batch_sizes_step; assumption.
        -- simpl. rewrite Hcat, length_drop.
           destruct Hg1 as (N1 & _). rewrite length_take in N1.
           rewrite N1, Nat.min_l by lia.
           rewrite <- seq_app. f_equal. lia.
    + apply Nat.leb_gt in Hle.
      rewrite Nat.min_r by lia.
      rewrite drop_ge by lia. rewrite take_ge in Hg1 by lia.
      destruct docs as [| doc docs].
      * simpl. exists [], h1. rewrite batch_sizes_zero.
        repeat split; try reflexivity; apply Hg1.
      * simpl seq.
        destruct pulls as [| pulls]; [simpl in Hpulls; lia |].
        rewrite iterate_S. simpl.
        exists [next_loc h :: seq (S (next_loc h)) (length docs)], h1.
        split; [reflexivity |]. split; [exact Hg1 |]. split.
        -- simpl. rewrite length_seq. symmetry.
           apply (batch_sizes_small B (S (length docs))); [lia | exact Hle].
        -- simpl. rewrite List.app_nil_r. reflexivity.
Qed.

Lemma batch_sizes_length (B N : nat) :
  0 < B -> length (batch_sizes B N) = (N + B - 1) / B.
Proof.
  intros HB. unfold batch_sizes. rewrite length_app, length_replicate.
  pose proof (Nat.div_mod_eq N B) as Hdm.
  pose proof (Nat.mod_upper_bound N B ltac:(lia)) as Hlt.
  destruct (Nat.eqb (N mod B) 0) eqn:Hmod; simpl.
  - apply Nat.eqb_eq in Hmod.
    rewrite Nat.add_0_r. apply (Nat.div_unique _ _ _ (B - 1)); lia.
  - apply Nat.eqb_neq in Hmod.
    apply (Nat.div_unique _ _ _ (N mod B - 1)); lia.
Qed.

Lemma batch_sizes_full (B N i x : nat) :
  batch_sizes B N !! i = Some x -> S i < length (batch_sizes B N) -> x = B.
Proof.
  unfold batch_sizes. rewrite length_app, length_replicate. intros Hi Hlen.
  destruct (Nat.lt_ge_cases i (N / B)) as [Hlt | Hge].
  - rewrite lookup_app_l in Hi by (rewrite length_replicate; exact Hlt).
    apply lookup_replicate in Hi as [-> _]. reflexivity.
  - destruct (Nat.eqb (N mod B) 0); simpl in Hlen; lia.
Qed.

Lemma batch_sizes_last (B N x : nat) :
  last (batch_sizes B N) = Some x ->
  x = if Nat.eqb (N - B * (N / B)) 0 then B else N - B * (N / B).
Proof.
  unfold batch_sizes. rewrite <- Nat.Div0.mod_eq.
  destruct (Nat.eqb (N mod B) 0).
  - rewrite List.app_nil_r. intros H.
    apply last_Some_elem_of, elem_of_replicate_inv in H. exact H.
  - rewrite last_snoc. congruence.
Qed.

Lemma batch_sizes_positive (B N x : nat) :
  0 < B -> In x (batch_sizes B N) -> 0 < x.
Proof.
  intros HB. unfold batch_sizes. intros Hin.
  apply in_app_or in Hin as [Hin | Hin].
  - apply list_elem_of_In, elem_of_replicate_inv in Hin. lia.
  - destruct (Nat.eqb (N mod B) 0) eqn:Hmod; [contradiction |].
    apply Nat.eqb_neq in Hmod. destruct Hin as [<- | []]. lia.
Qed.

(** ** Loading *)

Lemma load_data_loaded (env : Env) (self : NYTimesSource) (h : store)
    (g : docs_gen) :
  _docs self = Some g -> _load_data env self h = (Ok (), self, h).
Proof. unfold _load_data. intros ->. reflexivity. Qed.

Lemma load_data_fresh (env : Env) (a : Namespace) (s0 : option (list string))
    (h : store) (data : value) (first : value) (rest : list value)
    (t : DataFrame) (r1 : dict) :
  read_json env (api_response_file a) = inr data ->
  _get_nested_data data _response_docs = Ok (VList (first :: rest)) ->
  read_reference env (reference_data_file a) = inr t ->
  reconciled first t = Ok r1 ->
  exists h1,
    _load_data env {| args := Some a; _docs := None; _schema := s0 |} h =
    (Ok (), source_with (Some a) (Some (dict_keys r1)) (first :: rest) t, h1) /\
    grows h h1 [r1].
Proof.
  intros Hjson Hdocs Href Hrec.
  apply reconciled_inv in Hrec as (flat & series & Hflat & Hseries & ->).
  unfold _load_data, load_inputs. cbn [_docs args].
  rewrite Hjson. cbn [loaded]. rewrite bind_Ok, Hdocs, bind_Ok, Href.
  cbn [loaded]. rewrite bind_Ok. cbn [index0]. rewrite bind_Ok, Hflat, bind_Ok.
  unfold _match_by_review_status. simpl.
  rewrite Nat.eqb_refl, Hseries. simpl. rewrite Nat.eqb_refl.
  eexists. split; [reflexivity |].
  split; [simpl; lia |]. split.
  - intros l Hl. simpl.
    assert (Nat.eqb l (next_loc h) = false) as -> by (apply Nat.eqb_neq; lia).
    reflexivity.
  - intros i r' Hi. destruct i as [| i]; [| destruct i; discriminate].
    injection Hi as <-. simpl.
    rewrite Nat.add_0_r, Nat.eqb_refl. reflexivity.
Qed.

Lemma load_data_empty (env : Env) (a : Namespace) (s0 : option (list string))
    (h : store) (data : value) :
  read_json env (api_response_file a) = inr data ->
  _get_nested_data data _response_docs = Ok (VList []) ->
  exists e,
    _load_data env {| args := Some a; _docs := None; _schema := s0 |} h =
    (Raise e, {| args := Some a; _docs := None; _schema := s0 |}, h) /\
    (forall t, read_reference env (reference_data_file a) = inr t -> e = IndexError).
Proof.
  intros Hjson Hdocs.
  unfold _load_data, load_inputs. cbn [_docs args].
  rewrite Hjson. cbn [loaded]. rewrite bind_Ok, Hdocs, bind_Ok.
  destruct (read_reference env (reference_data_file a)) as [e | t]; simpl.
  - exists e. split; [reflexivity | discriminate].
  - exists IndexError. split; reflexivity.
Qed.

(** ** The batch size law *)

Lemma sizes_facts (B N : nat) (batches : list (list nat)) :
  0 < B ->
  map length batches = batch_sizes B N ->
  length batches = (N + B - 1) / B /\
  (forall i b, batches !! i = Some b -> S i < length batches -> length b = B) /\
  (forall b, last batches = Some b ->
             length b = if Nat.eqb (N - B * (N / B)) 0 then B else N - B * (N / B)) /\
  Forall (fun b => b <> []) batches /\
  (N = 0 -> batches = []).
Proof.
  intros HB Hsizes.
  assert (length batches = length (batch_sizes B N)) as Hlen
    by (rewrite <- Hsizes, length_map; reflexivity).
  change (map length batches) with (length <$> batches) in Hsizes.
  split; [rewrite Hlen; apply batch_sizes_length; exact HB |].
  split; [| split; [| split]].
  - intros i b Hi Hlt. apply (batch_sizes_full B N i).
    + rewrite <- Hsizes, list_lookup_fmap, Hi. reflexivity.
    + rewrite <- Hlen. exact Hlt.
  - intros b Hb. apply batch_sizes_last.
    rewrite <- Hsizes, fmap_last, Hb. reflexivity.
  - apply List.Forall_forall. intros b Hin ->.
    assert (In 0 (batch_sizes B N)) as H0.
    { rewrite <- Hsizes. change 0 with (length (@nil nat)).
      apply (in_map length). exact Hin. }
    apply (batch_sizes_positive B N 0 HB) in H0. lia.
  - intros ->. rewrite batch_sizes_zero in Hlen.
    destruct batches; [reflexivity | discriminate].
Qed.

Lemma records_in_order (h h' : store) (rs : list dict) :
  grows h h' rs -> map (objects h') (seq (next_loc h) (length rs)) = rs.
Proof.
  intros (_ & _ & Hnew).
  change (map (objects h') (seq (next_loc h) (length rs)))
    with (objects h' <$> seq (next_loc h) (length rs)).
  apply list_eq. intros i. rewrite list_lookup_fmap.
  destruct (rs !! i) as [r |] eqn:Hi.
  - rewrite lookup_seq_lt by (eapply lookup_lt_Some; exact Hi).
    simpl. rewrite (Hnew _ _ Hi). reflexivity.
  - rewrite lookup_seq_ge by (apply lookup_ge_None; exact Hi). reflexivity.
Qed.

Lemma batch_next_new (env : Env) (batch_size : Z)
    (self self1 : NYTimesSource) (h h1 : store) :
  args self <> None ->
  _load_data env self h = (Ok (), self1, h1) ->
  batch_next env (getDataBatch batch_size) self h =
  batch_next env (BatchYielded batch_size) self1 h1.
Proof.
  intros Hargs Hload.
  unfold getDataBatch, batch_next, _check_args.
  destruct (args self); [| congruence].
  rewrite Hload. reflexivity.
Qed.

Lemma iterate_new_loaded (env : Env) (batch_size : Z) (pulls : nat)
    (self self1 : NYTimesSource) (h h1 : store) :
  args self <> None ->
  _load_data env self h = (Ok (), self1, h1) ->
  iterate (S pulls) env (getDataBatch batch_size) self h =
  iterate (S pulls) env (BatchYielded batch_size) self1 h1.
Proof.
  intros Hargs Hload. rewrite !iterate_S.
  unfold getDataBatch, batch_next, _check_args.
  destruct (args self); [| congruence].
  rewrite Hload. reflexivity.
Qed.

(** C1, as amended: on a configured source that holds N documents, all of
    which reconcile, the source being loaded already or N being at least
    1, and for a batch size B > 0, the iteration over [getDataBatch(B)]
    yields ceil(N/B) batches and then stops; every batch but the last has
    B records, the last has N - B*floor(N/B) records when that is not
    zero and B otherwise, no batch is empty, a loaded source with N = 0
    yields no batch at all, and the batches hold the reconciled records
    in order. *)
Theorem batch_size_law (env : Env) (self : NYTimesSource) (h : store)
    (docs : list value) (t : DataFrame) (rs : list dict)
    (batch_size : Z) (pulls : nat) :
  configured_with env self docs t ->
  _docs self <> None \/ docs <> [] ->
  reconciles t docs rs ->
  (0 < batch_size)%Z ->
  length docs / Z.to_nat batch_size + 2 <= pulls ->
  exists batches self' h',
    iterate pulls env (getDataBatch batch_size) self h =
    (batches, Ok (), self', h') /\
    length batches =
      (length docs + Z.to_nat batch_size - 1) / Z.to_nat batch_size /\
    (forall i b, batches !! i = Some b -> S i < length batches ->
                 length b = Z.to_nat batch_size) /\
    (forall b, last batches = Some b ->
       length b =
       if Nat.eqb (length docs - Z.to_nat batch_size * (length docs / Z.to_nat batch_size)) 0
       then Z.to_nat batch_size
       else length docs - Z.to_nat batch_size * (length docs / Z.to_nat batch_size)) /\
    Forall (fun b => b <> []) batches /\
    (length docs = 0 -> batches = []) /\
    map (objects h') (concat batches) = rs.
Proof.
  intros (a & Hargs & Hconf) Hready Hrs Hsize Hpulls.
  assert (0 < Z.to_nat batch_size) as HB by lia.
  pose proof (Forall2_length _ _ _ Hrs) as Hlen.
  destruct pulls as [| pulls]; [lia |].
  destruct self as [sa sd ss]. simpl in Hargs, Hconf, Hready. subst sa.
  assert (exists s1 h1,
             iterate (S pulls) env (getDataBatch batch_size)
               {| args := Some a; _docs := sd; _schema := ss |} h =
             iterate (S pulls) env (BatchYielded batch_size)
               (source_with (Some a) s1 docs t) h1) as (s1 & h1 & Heq).
  { destruct Hconf as [-> | (-> & data & Hjson & Hdocs & Href)].
    - exists ss, h. apply iterate_new_loaded; [discriminate | reflexivity].
    - destruct docs as [| first rest]; [destruct Hready; congruence |].
      assert (exists r1, reconciled first t = Ok r1) as (r1 & Hr1)
        by (inversion Hrs; subst; eexists; eassumption).
      destruct (load_data_fresh env a ss h data first rest t r1 Hjson Hdocs Href Hr1)
        as (h1 & Hload & _).
      exists (Some (dict_keys r1)), h1.
      apply iterate_new_loaded; [discriminate | exact Hload]. }
  destruct (iterate_running env t (Some a) s1 batch_size _ eq_refl HB
              (S (length docs)) docs rs h1 (S pulls) ltac:(lia) Hrs Hpulls)
    as (batches & h2 & Hit & Hg & Hsizes & Hcat).
  exists batches, (source_with (Some a) s1 [] t), h2.
  split; [rewrite Heq; exact Hit |].
  destruct (sizes_facts _ _ _ HB Hsizes) as (F1 & F2 & F3 & F4 & F5).
  repeat (split; [assumption |]).
  rewrite Hcat, Hlen. apply records_in_order. exact Hg.
Qed.

Lemma batch_size_law_witness :
  exists batches self' h',
    iterate 4 five_env (getDataBatch 2) example_source empty_store =
    (batches, Ok (), self', h') /\
    length batches = 3 /\
    map length batches = [2; 2; 1] /\
    Forall (fun b => b <> []) batches.
Proof.
  destruct (batch_size_law five_env example_source empty_store five_docs
              review_table (records_of review_table five_docs) 2 4)
    as (batches & self' & h' & Hit & Hlen & _ & _ & Hne & _).
  - exists example_args. split; [reflexivity |]. right. split; [reflexivity |].
    eexists. repeat split; reflexivity.
  - right. discriminate.
  - repeat (constructor; [vm_compute; reflexivity |]). constructor.
  - lia.
  - simpl. lia.
  - exists batches, self', h'.
    split; [exact Hit |]. split; [exact Hlen |].
    split; [| exact Hne].
    vm_compute in Hit. injection Hit as <- _ _. reflexivity.
Defined.

(** C1 as stated fails for N = 0 on a source that is not loaded yet: the
    source is configured and its collection holds no document, and the
    iteration does not end as an empty sequence; the first pull raises
    [IndexError]. *)
Lemma batch_size_law_counterexample :
  configured_with empty_env example_source [] review_table /\
  reconciles review_table [] [] /\
  iterate 2 empty_env (getDataBatch 2) example_source empty_store =
  ([], Raise IndexError, example_source, empty_store).
Proof.
  split; [| split; [constructor | reflexivity]].
  exists example_args. split; [reflexivity |]. right. split; [reflexivity |].
  eexists. repeat split; reflexivity.
Qed.

(** ** A batch size that is not positive *)

Lemma iterate_empty (env : Env) (batch_size : Z) :
  Z.to_nat batch_size = 0 ->
  forall pulls self h,
    iterate pulls env (BatchYielded batch_size) self h =
    (replicate pulls [], OutOfFuel, self, h).
Proof.
  intros HB. induction pulls as [| pulls IH]; intros self h; [reflexivity |].
  rewrite iterate_S. unfold batch_next, batch_loop. rewrite HB. simpl.
  rewrite IH. reflexivity.
Qed.

(** C4, as amended: the code checks no batch size and has no error for
    one. For a batch size that is zero or negative, on a configured source
    whose data loads, no pull raises an error, no record is yielded, and no
    record is consumed: the source is as [_load_data] left it, with every
    document still to come, and the store holds no new record. *)
Theorem nonpositive_batch_size (env : Env) (self self1 : NYTimesSource)
    (h h1 : store) (batch_size : Z) (pulls : nat) :
  args self <> None ->
  _load_data env self h = (Ok (), self1, h1) ->
  (batch_size <= 0)%Z ->
  exists batches fin,
    iterate (S pulls) env (getDataBatch batch_size) self h =
    (batches, fin, self1, h1) /\
    (forall e, fin <> Raise e) /\
    concat batches = [].
Proof.
  intros Hargs Hload Hsize.
  exists (replicate (S pulls) []), OutOfFuel.
  split; [| split; [discriminate |]].
  - rewrite (iterate_new_loaded env batch_size pulls self self1 h h1 Hargs Hload).
    apply iterate_empty. lia.
  - generalize (S pulls). intros n. induction n as [| n IH]; [reflexivity | exact IH].
Qed.

Lemma nonpositive_batch_size_witness :
  exists batches fin self1 h1,
    _load_data example_env example_source empty_store = (Ok (), self1, h1) /\
    iterate 3 example_env (getDataBatch (-1)) example_source empty_store =
    (batches, fin, self1, h1) /\
    (forall e, fin <> Raise e) /\
    concat batches = [].
Proof.
  destruct (nonpositive_batch_size example_env example_source
              (snd (fst (_load_data example_env example_source empty_store)))
              empty_store
              (snd (_load_data example_env example_source empty_store))
              (-1) 2)
    as (batches & fin & Hit & Hfin & Hnone).
  - discriminate.
  - reflexivity.
  - lia.
  - exists batches, fin. do 2 eexists.
    split; [reflexivity |]. split; [exact Hit |]. split; [exact Hfin | exact Hnone].
Defined.

(** C4 as stated fails: with batch size 0 the first pull raises no error,
    and neither does the second. *)
Lemma nonpositive_batch_size_counterexample :
  exists x b self' h',
    batch_next example_env (getDataBatch 0) example_source empty_store =
    (Ok x, b, self', h') /\
    exists y, fst (fst (fst (batch_next example_env b self' h'))) = Ok y.
Proof. do 4 eexists. split; [reflexivity |]. eexists. reflexivity. Qed.

(** ** A source that is not configured *)

(** C5, as amended: with no arguments set, [getSchema] raises
    [NoArgumentsException] at the call. The call [getDataBatch(B)] raises
    nothing: it returns a generator that has not started, and the first
    pull on it raises [NoArgumentsException], before any batch. The
    instance and the store are as before. *)
Theorem unconfigured_fails (env : Env) (self : NYTimesSource) (h : store)
    (batch_size : Z) (pulls : nat) :
  args self = None ->
  getSchema env self h = (Raise NoArgumentsException, self, h) /\
  getDataBatch batch_size = BatchNew batch_size /\
  batch_next env (getDataBatch batch_size) self h =
    (Raise NoArgumentsException, BatchDone, self, h) /\
  iterate (S pulls) env (getDataBatch batch_size) self h =
    ([], Raise NoArgumentsException, self, h).
Proof.
  intros Hargs.
  assert (batch_next env (getDataBatch batch_size) self h =
          (Raise NoArgumentsException, BatchDone, self, h)) as Hnext
    by (unfold getDataBatch, batch_next, _check_args; rewrite Hargs; reflexivity).
  split; [| split; [reflexivity | split]].
  - unfold getSchema, _check_args. rewrite Hargs. reflexivity.
  - exact Hnext.
  - rewrite iterate_S, Hnext. reflexivity.
Qed.

Lemma unconfigured_fails_witness :
  getSchema example_env __init__ empty_store =
    (Raise NoArgumentsException, __init__, empty_store) /\
  getDataBatch 2 = BatchNew 2 /\
  batch_next example_env (getDataBatch 2) __init__ empty_store =
    (Raise NoArgumentsException, BatchDone, __init__, empty_store) /\
  iterate 1 example_env (getDataBatch 2) __init__ empty_store =
    ([], Raise NoArgumentsException, __init__, empty_store).
Proof. apply (unconfigured_fails example_env __init__ empty_store 2 0). reflexivity. Defined.

(** C5 as stated fails for [getDataBatch]: on a source that is not
    configured the call gives a generator, whose body has not run; it is
    not the finished generator that a failure leaves, and the error comes
    with the first pull. *)
Lemma unconfigured_fails_counterexample :
  args __init__ = None /\
  getDataBatch 2 = BatchNew 2 /\
  getDataBatch 2 <> BatchDone /\
  batch_next example_env (getDataBatch 2) __init__ empty_store =
    (Raise NoArgumentsException, BatchDone, __init__, empty_store).
Proof. repeat split. discriminate. Qed.

(** ** The schema *)

Lemma getSchema_memoized (env : Env) (self : NYTimesSource) (h : store)
    (schema : list string) :
  args self <> None ->
  _schema self = Some schema ->
  getSchema env self h = (Ok (Some schema), self, h).
Proof.
  intros Hargs Hschema. unfold getSchema, _check_args, _load_schema.
  destruct (args self); [| congruence].
  rewrite Hschema. simpl. rewrite Hschema. reflexivity.
Qed.

(** C8, as amended: on a configured source whose two files load and whose
    collection has a first document that reconciles (the flattener and
    then the joiner succeed on it), the first [getSchema] returns the keys of that record, in
    order; every later call returns the same list and changes nothing; and
    the batch of size 1 pulled from [getDataBatch(1)], after [getSchema] or
    instead of it, holds one record whose keys are that list. *)
Theorem schema_stable (env : Env) (a : Namespace) (h : store) (data : value)
    (first : value) (rest : list value) (t : DataFrame) (r1 : dict) :
  read_json env (api_response_file a) = inr data ->
  _get_nested_data data _response_docs = Ok (VList (first :: rest)) ->
  read_reference env (reference_data_file a) = inr t ->
  reconciled first t = Ok r1 ->
  exists self1 h1,
    getSchema env {| args := Some a; _docs := None; _schema := None |} h =
      (Ok (Some (dict_keys r1)), self1, h1) /\
    (forall env' h', getSchema env' self1 h' = (Ok (Some (dict_keys r1)), self1, h')) /\
    (forall env' h',
        exists l b self2 h2,
          batch_next env' (getDataBatch 1) self1 h' = (Ok (Some [l]), b, self2, h2) /\
          objects h2 l = r1 /\
          dict_keys (objects h2 l) = dict_keys r1 /\
          forall env'' h'',
            getSchema env'' self2 h'' = (Ok (Some (dict_keys r1)), self2, h'')) /\
    (exists l b self2 h2,
        batch_next env (getDataBatch 1)
          {| args := Some a; _docs := None; _schema := None |} h =
          (Ok (Some [l]), b, self2, h2) /\
        objects h2 l = r1 /\
        dict_keys (objects h2 l) = dict_keys r1).
Proof.
  intros Hjson Hdocs Href Hrec.
  destruct (load_data_fresh env a None h data first rest t r1 Hjson Hdocs Href Hrec)
    as (h1 & Hload & Hg1).
  assert (forall env' h',
             exists l h2,
               batch_next env' (BatchYielded 1)
                 (source_with (Some a) (Some (dict_keys r1)) (first :: rest) t) h' =
               (Ok (Some [l]), BatchYielded 1,
                source_with (Some a) (Some (dict_keys r1)) rest t, h2) /\
               objects h2 l = r1) as Hpull.
  { intros env' h'.
    destruct (docs_next_ok first rest t h' r1 Hrec) as (h2 & Hnext & Hg2).
    exists (next_loc h'), h2. split.
    - unfold batch_next, batch_loop.
      change (Z.to_nat 1) with 1. simpl batch_for. rewrite Hnext. reflexivity.
    - destruct Hg2 as (_ & _ & Hnew).
      specialize (Hnew 0 r1 eq_refl). rewrite Nat.add_0_r in Hnew. exact Hnew. }
  exists (source_with (Some a) (Some (dict_keys r1)) (first :: rest) t), h1.
  split; [| split; [| split]].
  - unfold getSchema, _check_args, _load_schema. cbn [args _schema].
    rewrite Hload. reflexivity.
  - intros env' h'. apply getSchema_memoized; [discriminate | reflexivity].
  - intros env' h'. destruct (Hpull env' h') as (l & h2 & Hnext & Hl).
    exists l, (BatchYielded 1), (source_with (Some a) (Some (dict_keys r1)) rest t), h2.
    split; [| split; [exact Hl | split; [rewrite Hl; reflexivity |]]].
    + rewrite <- Hnext. apply batch_next_new; [discriminate |].
      apply (load_data_loaded env' _ h' {| pending := first :: rest; table := t |}).
      reflexivity.
    + intros env'' h''. apply getSchema_memoized; [discriminate | reflexivity].
  - destruct (Hpull env h1) as (l & h2 & Hnext & Hl).
    exists l, (BatchYielded 1), (source_with (Some a) (Some (dict_keys r1)) rest t), h2.
    split; [| split; [exact Hl | rewrite Hl; reflexivity]].
    rewrite <- Hnext. apply batch_next_new; [discriminate | exact Hload].
Qed.

Lemma schema_stable_witness :
  exists self1 h1,
    getSchema example_env example_source empty_store =
      (Ok (Some ["_id"; "word_count"; "headline.main"; "headline.sub.q";
                 "row"; "article_id"; "status"]), self1, h1) /\
    getSchema example_env self1 h1 =
      (Ok (Some ["_id"; "word_count"; "headline.main"; "headline.sub.q";
                 "row"; "article_id"; "status"]), self1, h1) /\
    exists l b self2 h2,
      batch_next example_env (getDataBatch 1) self1 h1 =
        (Ok (Some [l]), b, self2, h2) /\
      dict_keys (objects h2 l) =
        ["_id"; "word_count"; "headline.main"; "headline.sub.q";
         "row"; "article_id"; "status"].
Proof.
  destruct (schema_stable example_env example_args empty_store
              (VDict [("response", VDict [("docs", VList example_docs)])])
              (VDict nested_example) [VDict [("_id", VStr "A1")]] review_table
              example_record)
    as (self1 & h1 & Hfirst & Hagain & Hbatch & _);
    try reflexivity.
  exists self1, h1. split; [exact Hfirst |]. split; [apply Hagain |].
  destruct (Hbatch example_env h1) as (l & b & self2 & h2 & Hnext & _ & Hkeys & _).
  exists l, b, self2, h2. split; [exact Hnext | exact Hkeys].
Defined.

(** C8 as stated fails: the collection is not empty, but its first
    document has no row in the table; [getSchema] raises [ValueError],
    leaves the source unloaded, and raises again at the next call: no call
    returns a list. *)
Lemma schema_stable_counterexample :
  configured_with unmatched_env example_source
    (VDict [("_id", VStr "B7")] :: example_docs) review_table /\
  exists h1,
    getSchema unmatched_env example_source empty_store =
      (Raise ValueError, example_source, h1) /\
    fst (fst (getSchema unmatched_env example_source h1)) = Raise ValueError /\
    fst (fst (fst (batch_next unmatched_env (getDataBatch 1) example_source h1))) =
      Raise ValueError.
Proof.
  split.
  - exists example_args. split; [reflexivity |]. right. split; [reflexivity |].
    eexists. repeat split; reflexivity.
  - eexists. split; [reflexivity |]. split; reflexivity.
Qed.

(** ** An empty document collection *)

(** C10: on a configured source that is not loaded and whose document
    list is empty, [getSchema] raises and so does the first pull on
    [getDataBatch(B)]: [IndexError] from [docs[0]] when the reference file
    loads, the loader's exception otherwise. Neither returns, and the
    instance is left as it was. *)
Theorem empty_collection_fails (env : Env) (a : Namespace) (h : store)
    (data : value) (batch_size : Z) :
  read_json env (api_response_file a) = inr data ->
  _get_nested_data data _response_docs = Ok (VList []) ->
  exists e,
    getSchema env {| args := Some a; _docs := None; _schema := None |} h =
      (Raise e, {| args := Some a; _docs := None; _schema := None |}, h) /\
    batch_next env (getDataBatch batch_size)
      {| args := Some a; _docs := None; _schema := None |} h =
      (Raise e, BatchDone, {| args := Some a; _docs := None; _schema := None |}, h) /\
    (forall t, read_reference env (reference_data_file a) = inr t -> e = IndexError).
Proof.
  intros Hjson Hdocs.
  destruct (load_data_empty env a None h data Hjson Hdocs) as (e & Hload & He).
  exists e. split; [| split; [| exact He]].
  - unfold getSchema, _check_args, _load_schema. cbn [args _schema].
    rewrite Hload. reflexivity.
  - unfold getDataBatch, batch_next, _check_args. cbn [args].
    rewrite Hload. reflexivity.
Qed.

Lemma empty_collection_fails_witness :
  exists e,
    getSchema empty_env example_source empty_store =
      (Raise e, example_source, empty_store) /\
    batch_next empty_env (getDataBatch 2) example_source empty_store =
      (Raise e, BatchDone, example_source, empty_store) /\
    e = IndexError.
Proof.
  destruct (empty_collection_fails empty_env example_args empty_store
              (VDict [("response", VDict [("docs", VList [])])]) 2)
    as (e & Hschema & Hnext & He); try reflexivity.
  exists e. split; [exact Hschema |]. split; [exact Hnext |].
  apply (He review_table). reflexivity.
Defined.

(** * Further properties *)

(** ** Walking a path *)

(** X1: walking the concatenation of two paths is walking the first and,
    from where it arrives, the second; an exception on the first part is
    the exception of the whole walk. *)
Theorem get_nested_data_compose (data : value) (p q : list string) :
  _get_nested_data data (p ++ q) =
  (_get_nested_data data p ≫= fun x => _get_nested_data x q).
Proof.
  revert data. induction p as [| key p IH]; intros data.
  - reflexivity.
  - simpl. destruct (getitem data key) as [x | e |]; simpl; [apply IH | reflexivity ..].
Qed.

Lemma get_nested_data_raises (data : value) (path : list string) (e : exn) :
  _get_nested_data data path = Raise e -> e = KeyError \/ e = TypeError.
Proof.
  revert data. induction path as [| key path IH]; intros data; simpl.
  - discriminate.
  - destruct (getitem data key) as [x | e' |] eqn:Hget; simpl.
    + apply IH.
    + intros [= <-]. destruct data; simpl in Hget; try (injection Hget as <-; tauto).
      destruct (dict_get key d); [discriminate |]. injection Hget as <-. tauto.
    + discriminate.
Qed.

(** X2: a walk raises [KeyError] or [TypeError] and nothing else:
    [TypeError] at the segment that follows a value that is not a
    dictionary, [KeyError] at a segment that the dictionary reached does
    not have. *)
Theorem get_nested_data_errors :
  (forall data path e,
      _get_nested_data data path = Raise e -> e = KeyError \/ e = TypeError) /\
  (forall data p v k q,
      _get_nested_data data p = Ok v -> is_dict v = false ->
      _get_nested_data data (p ++ k :: q) = Raise TypeError) /\
  (forall data p d k q,
      _get_nested_data data p = Ok (VDict d) -> dict_get k d = None ->
      _get_nested_data data (p ++ k :: q) = Raise KeyError).
Proof.
  split; [exact get_nested_data_raises |]. split.
  - intros data p v k q Hp Hv.
    rewrite get_nested_data_app, Hp. simpl.
    destruct v; try discriminate; reflexivity.
  - intros data p d k q Hp Hk.
    rewrite get_nested_data_app, Hp. simpl. rewrite Hk. reflexivity.
Qed.

Lemma get_nested_data_errors_witness :
  _get_nested_data (VDict nested_example) (["_id"] ++ "x" :: []) = Raise TypeError /\
  _get_nested_data (VDict nested_example) (["headline"] ++ "print" :: ["x"]) =
  Raise KeyError.
Proof.
  split.
  - apply (proj1 (proj2 get_nested_data_errors) _ _ (VStr "A1")); reflexivity.
  - eapply (proj2 (proj2 get_nested_data_errors)); reflexivity.
Defined.

(** ** The loop of the flattener *)

Lemma flatten_while_more (fuel : nat) :
  forall doc keys flat fuel',
    flatten_while fuel doc keys flat <> OutOfFuel ->
    fuel <= fuel' ->
    flatten_while fuel' doc keys flat = flatten_while fuel doc keys flat.
Proof.
  induction fuel as [| fuel IH]; intros doc keys flat fuel' Hcut Hle.
  - simpl in Hcut. congruence.
  - destruct fuel' as [| fuel']; [lia |]. simpl in *.
    destruct (flatten_for doc keys flat [] false) as [[[flat1 nested1] go1] | e |];
      simpl in *; try reflexivity.
    destruct go1; [| reflexivity].
    apply IH; [exact Hcut | lia].
Qed.

(** X3: the [while] loop of the flattener ends on every document, after
    at most as many rounds as the document has dictionary levels: run on
    any larger number of rounds it gives the same result. *)
Theorem flatten_dict_rounds (d : dict) (fuel : nat) :
  depth (VDict d) <= fuel ->
  flatten_while fuel (VDict d) (dict_keys d) [] = _flatten_dict (VDict d) /\
  _flatten_dict (VDict d) <> OutOfFuel.
Proof.
  intros Hfuel.
  pose proof (flatten_dict_terminates (VDict d)) as Hcut.
  split; [| exact Hcut].
  unfold _flatten_dict in *. apply flatten_while_more; assumption.
Qed.

Lemma flatten_dict_rounds_witness :
  flatten_while 10 (VDict nested_example) (dict_keys nested_example) [] =
  _flatten_dict (VDict nested_example) /\
  _flatten_dict (VDict nested_example) <> OutOfFuel.
Proof. apply flatten_dict_rounds. simpl. lia. Defined.

(** ** What the flattened document holds *)

Lemma in_dict_set (key : string) (v : value) (d : dict) (k' : string) (v' : value) :
  In (k', v') (dict_set key v d) -> (k' = key /\ v' = v) \/ In (k', v') d.
Proof.
  induction d as [| [k x] d IH]; simpl.
  - intros [[= <- <-] | []]. left. split; reflexivity.
  - destruct (String.eqb k key) eqn:Heq.
    + apply String.eqb_eq in Heq as ->.
      intros [[= <- <-] | Hin]; [left; split; reflexivity | right; right; exact Hin].
    + intros [Hhd | Hin]; [right; left; exact Hhd |].
      destruct (IH Hin) as [H | H]; [left; exact H | right; right; exact H].
Qed.

Lemma dict_set_NoDup (key : string) (v : value) (d : dict) :
  List.NoDup (dict_keys d) -> List.NoDup (dict_keys (dict_set key v d)).
Proof.
  unfold dict_keys. induction d as [| [k x] d IH]; simpl; intros Hnd.
  - constructor; [simpl; tauto | constructor].
  - inversion Hnd as [| ? ? Hk Hd]; subst.
    destruct (String.eqb k key) eqn:Heq; simpl.
    + constructor; assumption.
    + constructor; [| exact (IH Hd)].
      intros Hin. apply in_map_iff in Hin as ([k' v'] & Hk' & Hin). simpl in Hk'. subst k'.
      apply in_dict_set in Hin as [[-> _] | Hin].
      * rewrite String.eqb_refl in Heq. discriminate.
      * apply Hk. apply in_map_iff. exists (k, v'). split; [reflexivity | exact Hin].
Qed.

Lemma flatten_for_kept doc keys flat nested go_deep flat' nested' go_deep' :
  kept doc flat ->
  flatten_for doc keys flat nested go_deep = Ok (flat', nested', go_deep') ->
  kept doc flat'.
Proof.
  revert flat nested go_deep.
  induction keys as [| key keys IH]; intros flat nested go_deep Hflat; simpl.
  - intros [= <- <- <-]. exact Hflat.
  - intros H. apply bind_ok_inv in H as (item & Hitem & H).
    assert (is_dict item = false -> kept doc (dict_set key item flat)) as Hset.
    { intros Hleaf. destruct Hflat as [Hnd Hres]. split.
      - apply dict_set_NoDup. exact Hnd.
      - intros k v Hin. apply in_dict_set in Hin as [[-> ->] | Hin].
        + split; assumption.
        + exact (Hres _ _ Hin). }
    destruct item; try (apply IH in H; [exact H | apply Hset; reflexivity]).
    apply IH in H; [exact H | exact Hflat].
Qed.

Lemma flatten_while_kept doc fuel keys flat flat' :
  kept doc flat ->
  flatten_while fuel doc keys flat = Ok flat' ->
  kept doc flat'.
Proof.
  revert keys flat.
  induction fuel as [| fuel IH]; intros keys flat Hflat; simpl; [discriminate |].
  intros H. apply bind_ok_inv in H as ([[flat1 nested1] go1] & Hfor & H).
  apply flatten_for_kept in Hfor; [| exact Hflat].
  destruct go1.
  - exact (IH _ _ Hfor H).
  - injection H as <-. exact Hfor.
Qed.

Lemma flatten_dict_kept (doc : value) (flat : dict) :
  _flatten_dict doc = Ok flat -> kept doc flat.
Proof.
  destruct doc; try discriminate.
  unfold _flatten_dict. apply flatten_while_kept.
  split; [constructor | intros k v []].
Qed.

(** X4: whatever the document, every key of the mapping the flattener
    returns, read as a dotted path, leads in the document to the value
    stored under that key, which is not a dictionary; and no key is
    listed twice. *)
Theorem flatten_dict_resolves (doc : value) (flat : dict) :
  _flatten_dict doc = Ok flat ->
  List.NoDup (dict_keys flat) /\
  forall k v, In (k, v) flat ->
    _get_nested_data doc (split_dot k) = Ok v /\ is_dict v = false.
Proof. exact (flatten_dict_kept doc flat). Qed.

Lemma flatten_dict_resolves_witness :
  List.NoDup (dict_keys [("a.b", VNum 2)]) /\
  forall k v, In (k, v) [("a.b", VNum 2)] ->
    _get_nested_data (VDict dotted_example) (split_dot k) = Ok v /\
    is_dict v = false.
Proof. apply (flatten_dict_resolves (VDict dotted_example)). reflexivity. Defined.

Lemma flatten_for_raises doc keys flat nested go_deep e :
  flatten_for doc keys flat nested go_deep = Raise e ->
  e = KeyError \/ e = TypeError.
Proof.
  revert flat nested go_deep.
  induction keys as [| key keys IH]; intros flat nested go_deep; simpl.
  - discriminate.
  - destruct (_get_nested_data doc (split_dot key)) as [item | e' |] eqn:Hitem; simpl.
    + destruct item; apply IH.
    + intros [= <-]. exact (get_nested_data_raises _ _ _ Hitem).
    + discriminate.
Qed.

Lemma flatten_while_raises fuel doc keys flat e :
  flatten_while fuel doc keys flat = Raise e -> e = KeyError \/ e = TypeError.
Proof.
  revert keys flat.
  induction fuel as [| fuel IH]; intros keys flat; simpl; [discriminate |].
  destruct (flatten_for doc keys flat [] false) as [[[flat1 nested1] go1] | e' |] eqn:Hfor;
    simpl.
  - destruct go1; [apply IH | discriminate].
  - intros [= <-]. exact (flatten_for_raises _ _ _ _ _ _ Hfor).
  - discriminate.
Qed.

(** X5: the flattener raises [AttributeError] on anything that is not a
    dictionary, and on a dictionary it returns or raises [KeyError] or
    [TypeError], which come from walking a key as a path. *)
Theorem flatten_dict_raises (doc : value) :
  (is_dict doc = false -> _flatten_dict doc = Raise AttributeError) /\
  (is_dict doc = true ->
   forall e, _flatten_dict doc = Raise e -> e = KeyError \/ e = TypeError).
Proof.
  split.
  - destruct doc; try discriminate; reflexivity.
  - destruct doc; try discriminate. intros _ e.
    unfold _flatten_dict. apply flatten_while_raises.
Qed.

Lemma flatten_dict_raises_witness :
  _flatten_dict (VList [VDict nested_example]) = Raise AttributeError /\
  (forall e, _flatten_dict (VDict [("a.b", VNum 1); ("a", VNum 5)]) = Raise e ->
             e = KeyError \/ e = TypeError).
Proof.
  split.
  - apply (proj1 (flatten_dict_raises (VList [VDict nested_example]))). reflexivity.
  - apply (proj2 (flatten_dict_raises (VDict [("a.b", VNum 1); ("a", VNum 5)]))).
    reflexivity.
Defined.

(** ** Looking a leaf up by its dotted path *)

Lemma dict_get_Some_in (key : string) (d : dict) (x : value) :
  dict_get key d = Some x -> In (key, x) d.
Proof.
  induction d as [| [k y] d IH]; simpl; [discriminate |].
  destruct (String.eqb k key) eqn:Heq.
  - apply String.eqb_eq in Heq as ->. intros [= ->]. left. reflexivity.
  - intros H. right. exact (IH H).
Qed.

Lemma dict_get_NoDup_in (key : string) (v : value) (d : dict) :
  List.NoDup (dict_keys d) -> In (key, v) d -> dict_get key d = Some v.
Proof.
  unfold dict_keys. induction d as [| [k y] d IH]; simpl; intros Hnd Hin; [contradiction |].
  inversion Hnd as [| ? ? Hk Hd]; subst.
  destruct Hin as [[= -> ->] | Hin].
  - rewrite String.eqb_refl. reflexivity.
  - destruct (String.eqb k key) eqn:Heq.
    + apply String.eqb_eq in Heq as ->. exfalso. apply Hk.
      apply in_map_iff. exists (key, v). split; [reflexivity | exact Hin].
    + exact (IH Hd Hin).
Qed.

Lemma leaves_at_path (ks : list string) :
  forall prefix x v,
    _get_nested_data x ks = Ok v ->
    is_dict v = false ->
    In (fold_left dotted ks prefix, v) (leaves_at prefix x).
Proof.
  induction ks as [| k ks IH]; intros prefix x v Hget Hleaf; simpl in *.
  - injection Hget as ->. destruct v; try discriminate; left; reflexivity.
  - apply bind_ok_inv in Hget as (y & Hy & Hget).
    destruct x; simpl in Hy; try discriminate.
    destruct (dict_get k d) as [y' |] eqn:Hk; [| discriminate].
    injection Hy as ->.
    apply in_flat_map. exists (k, y). split.
    + apply dict_get_Some_in. exact Hk.
    + apply IH; assumption.
Qed.

(** X6: on a well-formed document, a path of keys that leads to a value
    that is not a dictionary is found again in the flattened document:
    the value is stored under the keys of the path joined by ["."]. *)
Theorem flatten_dict_lookup (d : dict) (k : string) (ks : list string) (v : value) :
  well_formed (VDict d) ->
  _get_nested_data (VDict d) (k :: ks) = Ok v ->
  is_dict v = false ->
  exists flat,
    _flatten_dict (VDict d) = Ok flat /\
    dict_get (join_path k ks) flat = Some v.
Proof.
  intros Hwf Hget Hleaf.
  exists (levels (depth (VDict d)) d).
  split; [exact (flatten_dict_levels d Hwf) |].
  assert (Permutation (levels (depth (VDict d)) d) (leaves d)) as Hperm
    by (apply levels_leaves; rewrite depth_dict; lia).
  apply dict_get_NoDup_in.
  - apply (Permutation_NoDup (l := map fst (leaves d))).
    + apply Permutation_map. symmetry. exact Hperm.
    + apply leaves_NoDup. exact Hwf.
  - apply (Permutation_in _ (Permutation_sym Hperm)).
    simpl in Hget. apply bind_ok_inv in Hget as (y & Hy & Hget).
    destruct (dict_get k d) as [y' |] eqn:Hk; [| discriminate].
    injection Hy as ->.
    unfold leaves. apply in_flat_map. exists (k, y). split.
    + apply dict_get_Some_in. exact Hk.
    + apply leaves_at_path; assumption.
Qed.

Lemma flatten_dict_lookup_witness :
  exists flat,
    _flatten_dict (VDict nested_example) = Ok flat /\
    dict_get "headline.sub.q" flat = Some (VList [VNum 1]).
Proof.
  apply (flatten_dict_lookup nested_example "headline" ["sub"; "q"]).
  - split; vm_compute; reflexivity.
  - reflexivity.
  - reflexivity.
Defined.

(** ** The order of the flattened keys *)

Lemma sorted_app {A : Type} (R : A -> A -> Prop) (l1 l2 : list A) :
  StronglySorted R l1 -> StronglySorted R l2 ->
  (forall a b, In a l1 -> In b l2 -> R a b) ->
  StronglySorted R (l1 ++ l2).
Proof.
  induction l1 as [| a l1 IH]; simpl; intros H1 H2 H12; [exact H2 |].
  inversion H1 as [| ? ? Hs Ha]; subst.
  constructor.
  - apply IH; [exact Hs | exact H2 | intros x y Hx Hy; apply H12; [right |]; assumption].
  - apply Forall_app. split; [exact Ha |].
    apply List.Forall_forall. intros b Hb. apply H12; [left; reflexivity | exact Hb].
Qed.

Lemma sorted_same_depth (m : nat) (F : frontier) :
  Forall (fun kv => key_depth (fst kv) = m) F -> StronglySorted shallower F.
Proof.
  induction F as [| kv F IH]; intros H; [constructor |].
  apply Forall_cons_1 in H as [Hkv HF].
  constructor; [exact (IH HF) |].
  eapply Forall_impl; [exact HF |]. intros x Hx. unfold shallower.
  simpl in Hkv, Hx. lia.
Qed.

Lemma emitted_in (F : frontier) (kv : string * value) :
  In kv (emitted F) -> In kv F.
Proof. unfold emitted. intros H. apply filter_In in H as [H _]. exact H. Qed.

Lemma children_key_depth (m : nat) (F : frontier) :
  Forall (fun kv => key_depth (fst kv) = m) F ->
  well_formed_frontier F ->
  Forall (fun kv => key_depth (fst kv) = S m) (children F).
Proof.
  unfold well_formed_frontier, children. intros Hm HF.
  apply List.Forall_forall. intros [key x] Hin.
  apply in_flat_map in Hin as ([k v] & Hkv & Hin).
  rewrite List.Forall_forall in HF, Hm.
  specialize (HF _ Hkv). specialize (Hm _ Hkv). simpl in HF, Hm.
  unfold children_of in Hin. simpl in Hin.
  destruct v as [| b | z | | s | l | d]; try contradiction.
  apply in_map_iff in Hin as ([e y] & [= <- <-] & Hin).
  apply well_formed_dict_inv in HF as [_ HF].
  rewrite List.Forall_forall in HF. destruct (HF _ Hin) as [Hdot _].
  simpl in *. unfold key_depth in *.
  rewrite split_dot_dotted, length_app, (split_dot_plain _ Hdot), Hm. simpl. lia.
Qed.

Lemma levels_sorted (fuel : nat) :
  forall (F : frontier) (m : nat),
    Forall (fun kv => key_depth (fst kv) = m) F ->
    well_formed_frontier F ->
    StronglySorted shallower (levels fuel F) /\
    Forall (fun kv => m <= key_depth (fst kv)) (levels fuel F).
Proof.
  induction fuel as [| fuel IH]; intros F m Hm HF; simpl.
  - split; constructor.
  - destruct (IH (children F) (S m) (children_key_depth m F Hm HF)
                (children_well_formed F HF)) as [Hs Hd].
    assert (Forall (fun kv => key_depth (fst kv) = m) (emitted F)) as He.
    { rewrite List.Forall_forall in Hm. apply List.Forall_forall.
      intros kv Hin. apply Hm, emitted_in, Hin. }
    split.
    + apply sorted_app; [exact (sorted_same_depth m _ He) | exact Hs |].
      intros a b Ha Hb. unfold shallower.
      rewrite List.Forall_forall in He, Hd.
      rewrite (He _ Ha). specialize (Hd _ Hb). simpl in Hd. lia.
    + apply Forall_app. split.
      * eapply Forall_impl; [exact He |]. intros kv H. simpl in H. lia.
      * eapply Forall_impl; [exact Hd |]. intros kv H. simpl in H. lia.
Qed.

(** X7: on a well-formed document the flattened keys come level by level:
    first the top-level entries that are not dictionaries, in the order of
    the document, then the deeper ones, so that the number of segments of
    the keys never decreases along the result. *)
Theorem flatten_dict_breadth_first (d : dict) :
  well_formed (VDict d) ->
  exists rest,
    _flatten_dict (VDict d) = Ok (emitted d ++ rest) /\
    Forall (fun kv => 2 <= key_depth (fst kv)) rest /\
    StronglySorted shallower (emitted d ++ rest).
Proof.
  intros Hwf.
  pose proof (flatten_dict_levels d Hwf) as Hflat.
  rewrite depth_dict in Hflat. simpl levels in Hflat.
  exists (levels (frontier_depth d) (children d)).
  split; [exact Hflat |].
  assert (Forall (fun kv : string * value => key_depth (fst kv) = 1) d) as Hone.
  { apply well_formed_dict_inv in Hwf as [_ Hwf].
    eapply Forall_impl; [exact Hwf |]. intros kv [Hdot _].
    unfold key_depth. rewrite (split_dot_plain _ Hdot). reflexivity. }
  pose proof (top_level_well_formed d Hwf) as HF.
  split.
  - exact (proj2 (levels_sorted (frontier_depth d) (children d) 2
                    (children_key_depth 1 d Hone HF) (children_well_formed d HF))).
  - exact (proj1 (levels_sorted (S (frontier_depth d)) d 1 Hone HF)).
Qed.

Lemma flatten_dict_breadth_first_witness :
  exists rest,
    _flatten_dict (VDict nested_example) =
    Ok ([("_id", VStr "A1"); ("word_count", VNum 3)] ++ rest) /\
    Forall (fun kv => 2 <= key_depth (fst kv)) rest /\
    StronglySorted shallower ([("_id", VStr "A1"); ("word_count", VNum 3)] ++ rest).
Proof.
  apply (flatten_dict_breadth_first nested_example).
  split; vm_compute; reflexivity.
Defined.

(** ** Dictionary updates *)

Lemma dict_get_set_ne (key k : string) (v : value) (d : dict) :
  k <> key -> dict_get k (dict_set key v d) = dict_get k d.
Proof.
  intros Hne. induction d as [| [k0 x] d IH]; simpl.
  - destruct (String.eqb key k) eqn:Heq; [| reflexivity].
    apply String.eqb_eq in Heq. congruence.
  - destruct (String.eqb k0 key) eqn:Heq; simpl.
    + apply String.eqb_eq in Heq as ->.
      destruct (String.eqb key k) eqn:Hk; [| reflexivity].
      apply String.eqb_eq in Hk. congruence.
    + rewrite IH. reflexivity.
Qed.

Lemma dict_get_None_keys (k : string) (d : dict) :
  dict_get k d = None <-> ~ In k (dict_keys d).
Proof.
  unfold dict_keys. induction d as [| [k0 x] d IH]; simpl; [tauto |].
  destruct (String.eqb k0 k) eqn:Heq.
  - apply String.eqb_eq in Heq. split; [discriminate | tauto].
  - apply String.eqb_neq in Heq. rewrite IH. tauto.
Qed.

Lemma dict_update_cons (d : dict) (kv : string * value) (items : dict) :
  dict_update d (kv :: items) = dict_update (dict_set (fst kv) (snd kv) d) items.
Proof. reflexivity. Qed.

Lemma dict_update_NoDup (items d : dict) :
  List.NoDup (dict_keys d) -> List.NoDup (dict_keys (dict_update d items)).
Proof.
  revert d. induction items as [| kv items IH]; intros d Hd; [exact Hd |].
  rewrite dict_update_cons. apply IH, dict_set_NoDup, Hd.
Qed.

Lemma in_dict_update (items d : dict) (k : string) (v : value) :
  In (k, v) (dict_update d items) -> In (k, v) d \/ In (k, v) items.
Proof.
  revert d. induction items as [| [k0 v0] items IH]; intros d; [tauto |].
  rewrite dict_update_cons. intros H. apply IH in H as [H | H]; [| right; right; exact H].
  apply in_dict_set in H as [[-> ->] | H]; [right; left; reflexivity | left; exact H].
Qed.

Lemma dict_get_update_notin (items d : dict) (k : string) :
  dict_get k items = None -> dict_get k (dict_update d items) = dict_get k d.
Proof.
  revert d. induction items as [| [k0 v0] items IH]; intros d; [reflexivity |].
  intros H. rewrite dict_update_cons. simpl in H.
  destruct (String.eqb k0 k) eqn:Heq; [discriminate |].
  rewrite (IH _ H). simpl.
  apply dict_get_set_ne. apply String.eqb_neq in Heq. congruence.
Qed.

Lemma dict_get_update_in (items d : dict) (k : string) (v : value) :
  List.NoDup (dict_keys items) -> In (k, v) items ->
  dict_get k (dict_update d items) = Some v.
Proof.
  unfold dict_keys. revert d.
  induction items as [| [k0 v0] items IH]; intros d Hnd Hin; [contradiction |].
  simpl in Hnd. inversion Hnd as [| ? ? Hk0 Hitems]; subst.
  rewrite dict_update_cons. destruct Hin as [[= -> ->] | Hin].
  - rewrite dict_get_update_notin by (apply dict_get_None_keys; exact Hk0).
    apply dict_get_set_eq.
  - apply IH; assumption.
Qed.

Lemma dict_keys_set_prefix (key : string) (v : value) (d : dict) :
  exists extra, dict_keys (dict_set key v d) = dict_keys d ++ extra.
Proof.
  unfold dict_keys. induction d as [| [k x] d [extra IH]]; simpl.
  - exists [key]. reflexivity.
  - destruct (String.eqb k key); simpl.
    + exists []. rewrite List.app_nil_r. reflexivity.
    + exists extra. rewrite IH. reflexivity.
Qed.

Lemma dict_keys_update_prefix (items d : dict) :
  exists extra, dict_keys (dict_update d items) = dict_keys d ++ extra.
Proof.
  revert d. induction items as [| kv items IH]; intros d.
  - exists []. rewrite List.app_nil_r. reflexivity.
  - rewrite dict_update_cons.
    destruct (IH (dict_set (fst kv) (snd kv) d)) as [e2 H2].
    destruct (dict_keys_set_prefix (fst kv) (snd kv) d) as [e1 H1].
    exists (e1 ++ e2). rewrite H2, H1, List.app_assoc. reflexivity.
Qed.

Lemma normalized_columns_NoDup (series : row) :
  List.NoDup (dict_keys (normalized_columns series)).
Proof. apply dict_update_NoDup. constructor. Qed.

Lemma normalized_columns_scalar (series : row) (k : string) (v : value) :
  In (k, v) (normalized_columns series) -> is_dict v = false.
Proof.
  unfold normalized_columns, dict_of_items. intros H.
  apply in_dict_update in H as [[] | H].
  apply in_map_iff in H as ([k1 v1] & [= _ ->] & H).
  unfold to_dict, dict_of_items in H.
  apply in_dict_update in H as [[] | H].
  apply in_map_iff in H as ([k2 c] & [= _ <-] & _).
  destruct c; reflexivity.
Qed.

(** ** The joiner merges the columns of the latest row *)





Lemma normalized_columns_distinct (series : row) :
  List.NoDup (map (fun kc => normalize (fst kc)) series) ->
  normalized_columns series =
  map (fun kc => (normalize (fst kc), value_of_cell (snd kc))) series.
Proof.
  intros Hnd.
  assert (List.NoDup (map fst series)) as Hnames.
  { apply (NoDup_map_inv normalize). rewrite List.map_map. exact Hnd. }
  assert (to_dict series = map (fun kc => (fst kc, value_of_cell (snd kc))) series) as E.
  { unfold to_dict, dict_of_items. apply (dict_update_fresh []).
    simpl. rewrite List.map_map. exact Hnames. }
  unfold normalized_columns, dict_of_items. rewrite E, List.map_map. simpl.
  apply (dict_update_fresh []). simpl. rewrite List.map_map. exact Hnd.
Qed.



(** ** What the joiner keeps and what it overwrites *)

(** X8: after a successful join, every normalized column of the selected
    row is in the document with the value of the row, also where the
    document had that key before; every other key keeps its value; and
    the keys the document had stay where they were, the new ones coming
    after them. *)
Theorem joiner_merge (h : store) (doc : nat) (excel_data : DataFrame)
    (r : nat) (h' : store) :
  _match_by_review_status doc excel_data h = Ok (r, h') ->
  exists series,
    matching_series (objects h doc) excel_data = Ok series /\
    (forall k v, In (k, v) (normalized_columns series) ->
                 dict_get k (objects h' doc) = Some v) /\
    (forall k, dict_get k (normalized_columns series) = None ->
               dict_get k (objects h' doc) = dict_get k (objects h doc)) /\
    (exists extra,
        dict_keys (objects h' doc) = dict_keys (objects h doc) ++ extra).
Proof.
  unfold _match_by_review_status. intros H.
  apply bind_ok_inv in H as (series & Hseries & H).
  injection H as <- <-. rewrite objects_write_eq.
  exists series. split; [exact Hseries |]. split; [| split].
  - intros k v Hin. apply dict_get_update_in; [apply normalized_columns_NoDup | exact Hin].
  - intros k Hk. apply dict_get_update_notin. exact Hk.
  - apply dict_keys_update_prefix.
Qed.

Lemma joiner_merge_witness :
  exists h' series,
    _match_by_review_status 0 review_table
      (snd (alloc [("status", VStr "draft"); ("_id", VStr "A1")] empty_store)) =
    Ok (0, h') /\
    matching_series [("status", VStr "draft"); ("_id", VStr "A1")] review_table =
    Ok series /\
    dict_get "status" (objects h' 0) = Some (VStr "approved") /\
    dict_get "_id" (objects h' 0) = Some (VStr "A1") /\
    exists extra, dict_keys (objects h' 0) = ["status"; "_id"] ++ extra.
Proof.
  destruct (joiner_merge
              (snd (alloc [("status", VStr "draft"); ("_id", VStr "A1")] empty_store))
              0 review_table 0
              (write 0 [("status", VStr "approved"); ("_id", VStr "A1");
                        ("row", VNum 2); ("article_id", VStr "A1")]
                 (snd (alloc [("status", VStr "draft"); ("_id", VStr "A1")] empty_store))))
    as (series & Hseries & Hin & Hout & Hkeys); [reflexivity |].
  eexists. exists series. split; [reflexivity |]. split; [exact Hseries |].
  simpl in Hseries. injection Hseries as <-.
  split; [| split].
  - apply Hin. right. right. left. reflexivity.
  - rewrite Hout; reflexivity.
  - exact Hkeys.
Defined.

(** ** A document without a usable row *)





(** ** Normalized keys *)

Lemma normalize_cons (c : ascii) (s : string) :
  normalize (String c s) =
  String (if Ascii.eqb (ascii_lower c) " " then "_"%char else ascii_lower c)
         (normalize s).
Proof. reflexivity. Qed.

Lemma normalize_char (c : ascii) :
  let c' := if Ascii.eqb (ascii_lower c) " " then "_"%char else ascii_lower c in
  (if Ascii.eqb (ascii_lower c') " " then "_"%char else ascii_lower c') = c' /\
  is_blank c' = false /\ is_upper c' = false.
Proof.
  destruct c as [[] [] [] [] [] [] [] []]; vm_compute; repeat split; reflexivity.
Qed.

Lemma normalize_ascii_char (c : ascii) :
  is_ascii c = true ->
  is_ascii (if Ascii.eqb (ascii_lower c) " " then "_"%char else ascii_lower c) = true.
Proof.
  destruct c as [[] [] [] [] [] [] [] []]; vm_compute; intros H;
    first [reflexivity | discriminate H].
Qed.

(** X10: for a key of ASCII characters, the normalized key is of ASCII
    characters too, has no space and no upper-case letter, is as long as
    the key it comes from, and normalizing it again changes nothing. *)
Theorem normalize_shape (key : string) :
  string_forall is_ascii key = true ->
  string_forall is_ascii (normalize key) = true /\
  normalize (normalize key) = normalize key /\
  String.length (normalize key) = String.length key /\
  string_forall (fun c => negb (is_blank c) && negb (is_upper c)) (normalize key) = true.
Proof.
  induction key as [| c key IH]; [repeat split; reflexivity |].
  intros Hascii. simpl string_forall in Hascii.
  apply andb_true_iff in Hascii as [Hc Hkey].
  destruct (IH Hkey) as (IH0 & IH1 & IH2 & IH3).
  rewrite !normalize_cons.
  destruct (normalize_char c) as (Hc1 & Hc2 & Hc3). cbv zeta in Hc1, Hc2, Hc3.
  split; [| split; [| split]].
  - simpl string_forall. rewrite (normalize_ascii_char c Hc), IH0. reflexivity.
  - rewrite Hc1, IH1. reflexivity.
  - simpl. rewrite IH2. reflexivity.
  - simpl string_forall. rewrite Hc2, Hc3, IH3. reflexivity.
Qed.

Lemma normalize_shape_witness :
  normalize "Article Id" = "article_id" /\
  string_forall is_ascii (normalize "Article Id") = true /\
  normalize (normalize "Article Id") = normalize "Article Id" /\
  String.length (normalize "Article Id") = String.length "Article Id" /\
  string_forall (fun c => negb (is_blank c) && negb (is_upper c))
    (normalize "Article Id") = true.
Proof.
  split; [reflexivity |]. apply (normalize_shape "Article Id"). reflexivity.
Defined.

(** ** Reconciled records *)

Lemma dict_keys_set (key : string) (v : value) (d : dict) :
  dict_keys (dict_set key v d) =
  if existsb (String.eqb key) (dict_keys d) then dict_keys d else dict_keys d ++ [key].
Proof.
  unfold dict_keys. induction d as [| [k x] d IH]; simpl; [reflexivity |].
  rewrite (String.eqb_sym key k).
  destruct (String.eqb k key); simpl; [reflexivity |].
  rewrite IH. destruct (existsb (String.eqb key) (map fst d)); reflexivity.
Qed.

Lemma new_keys_fresh (d items : dict) (k : string) :
  ~ In k (dict_keys items) ->
  List.filter (fun x => negb (existsb (String.eqb x) (dict_keys d ++ [k])))
    (dict_keys items) = new_keys d items.
Proof.
  unfold new_keys. intros Hk. apply List.filter_ext_in. intros x Hx.
  rewrite existsb_app. simpl. rewrite orb_false_r.
  assert (String.eqb x k = false) as ->
    by (apply String.eqb_neq; intros ->; exact (Hk Hx)).
  rewrite orb_false_r. reflexivity.
Qed.

Lemma dict_keys_update_exact (items d : dict) :
  List.NoDup (dict_keys items) ->
  dict_keys (dict_update d items) = dict_keys d ++ new_keys d items.
Proof.
  revert d. induction items as [| [k v] items IH]; intros d Hnd.
  - unfold new_keys. simpl. rewrite List.app_nil_r. reflexivity.
  - unfold dict_keys in Hnd. simpl in Hnd.
    inversion Hnd as [| ? ? Hk Hitems]; subst.
    rewrite dict_update_cons, (IH _ Hitems). simpl fst. simpl snd.
    unfold new_keys at 1. rewrite dict_keys_set.
    unfold new_keys at 1. simpl dict_keys. simpl List.filter.
    destruct (existsb (String.eqb k) (dict_keys d)) eqn:Hin; simpl.
    + reflexivity.
    + rewrite <- List.app_assoc. simpl.
      rewrite (new_keys_fresh d items k Hk). reflexivity.
Qed.

Lemma matching_series_in (doc : dict) (t : DataFrame) (series : row) :
  matching_series doc t = Ok series -> In series t.
Proof.
  unfold matching_series. intros H.
  apply bind_ok_inv in H as (ids & _ & H).
  apply bind_ok_inv in H as (mask & _ & H).
  apply bind_ok_inv in H as (rows & _ & H).
  unfold iloc_idxmax in H.
  destruct (is_object rows); [discriminate |].
  destruct (select 0 mask rows); [discriminate |].
  destruct (idxmax_scan None _) as [[i z] |]; [| discriminate].
  destruct (t !! i) as [r |] eqn:Hi; [| discriminate].
  injection H as <-. apply list_elem_of_In, list_elem_of_lookup. exists i. exact Hi.
Qed.

(** X11: over a table whose rows have distinct normalized column names, a
    reconciled record holds no dictionary and lists no key twice, and its
    keys are the keys of the flattened document, in their order, followed
    by the normalized column names of one row of the table, in the order
    of the columns, those that the flattened document has left out. *)
Theorem reconciled_shape (doc : value) (excel_data : DataFrame) (r : dict) :
  distinct_columns excel_data = true ->
  reconciled doc excel_data = Ok r ->
  no_dict_value r /\
  List.NoDup (dict_keys r) /\
  exists flat series,
    _flatten_dict doc = Ok flat /\
    In series excel_data /\
    dict_keys r =
    dict_keys flat ++
    List.filter (fun k => negb (existsb (String.eqb k) (dict_keys flat)))
      (map (fun kc => normalize (fst kc)) series).
Proof.
  intros Hcols H. apply reconciled_inv in H as (flat & series & Hflat & Hseries & ->).
  destruct (flatten_dict_kept doc flat Hflat) as [Hnd Hleaves].
  pose proof (matching_series_in _ _ _ Hseries) as Hin.
  split; [| split].
  - apply List.Forall_forall. intros [k v] Hkv. simpl.
    apply in_dict_update in Hkv as [Hkv | Hkv].
    + exact (proj2 (Hleaves _ _ Hkv)).
    + exact (normalized_columns_scalar _ _ _ Hkv).
  - apply dict_update_NoDup. exact Hnd.
  - exists flat, series. split; [exact Hflat |]. split; [exact Hin |].
    rewrite dict_keys_update_exact by apply normalized_columns_NoDup.
    unfold new_keys. rewrite normalized_columns_distinct.
    + unfold dict_keys. rewrite List.map_map. reflexivity.
    + apply distinct_NoDup. unfold distinct_columns in Hcols.
      rewrite forallb_forall in Hcols. apply Hcols. exact Hin.
Qed.

Lemma reconciled_shape_witness :
  no_dict_value example_record /\
  List.NoDup (dict_keys example_record) /\
  exists flat series,
    _flatten_dict (VDict nested_example) = Ok flat /\
    In series review_table /\
    dict_keys example_record =
    dict_keys flat ++
    List.filter (fun k => negb (existsb (String.eqb k) (dict_keys flat)))
      (map (fun kc => normalize (fst kc)) series).
Proof.
  apply (reconciled_shape (VDict nested_example) review_table); reflexivity.
Defined.

(** ** The records of the generator are new objects *)

Lemma older_refl (h : store) : older h h.
Proof. split; [lia | reflexivity]. Qed.

Lemma older_trans (h h1 h2 : store) : older h h1 -> older h1 h2 -> older h h2.
Proof.
  intros [N1 O1] [N2 O2]. split; [lia |].
  intros l Hl. rewrite O2 by lia. apply O1. exact Hl.
Qed.

Lemma grows_older (h h' : store) (rs : list dict) : grows h h' rs -> older h h'.
Proof. intros (N & O & _). split; [lia | exact O]. Qed.

Lemma older_alloc (d : dict) (h : store) : older h (snd (alloc d h)).
Proof.
  split; [simpl; lia |]. intros l Hl. simpl.
  assert (Nat.eqb l (next_loc h) = false) as -> by (apply Nat.eqb_neq; lia).
  reflexivity.
Qed.

Lemma docs_next_cases (g : docs_gen) (h : store) :
  forall r g' h',
    docs_next g h = (r, g', h') ->
    older h h' /\
    match r with
    | Ok (Some l) =>
        l = next_loc h /\ next_loc h' = S (next_loc h) /\
        exists doc, pending g = doc :: pending g' /\ table g' = table g
    | Ok None => pending g = [] /\ g' = g /\ h' = h
    | _ => pending g' = [] /\ table g' = table g
    end.
Proof.
  intros r g' h'. unfold docs_next.
  destruct (pending g) as [| doc rest] eqn:Hp.
  - intros [= <- <- <-]. split; [apply older_refl | repeat split].
  - destruct (_flatten_dict doc) as [flat | e |].
    + simpl. unfold _match_by_review_status. simpl. rewrite Nat.eqb_refl.
      destruct (matching_series flat (table g)) as [series | e |]; simpl.
      * intros [= <- <- <-]. split.
        -- split; [simpl; lia |]. intros l Hl. simpl.
           assert (Nat.eqb l (next_loc h) = false) as -> by (apply Nat.eqb_neq; lia).
           reflexivity.
        -- split; [reflexivity |]. split; [reflexivity |].
           exists doc. split; reflexivity.
      * intros [= <- <- <-]. split; [apply (older_alloc flat h) | split; reflexivity].
      * intros [= <- <- <-]. split; [apply (older_alloc flat h) | split; reflexivity].
    + intros [= <- <- <-]. split; [apply older_refl | split; reflexivity].
    + intros [= <- <- <-]. split; [apply older_refl | split; reflexivity].
Qed.

(** X12: whatever the documents and the table, the references that the
    generator yields are new locations of the store, one after the other,
    so no two records are the same object, and the dictionaries that were
    in the store before keep their contents. *)
Theorem drain_yields_fresh (pulls : nat) :
  forall g h yielded fin g' h',
    drain pulls g h = (yielded, fin, g', h') ->
    yielded = seq (next_loc h) (length yielded) /\
    List.NoDup yielded /\
    older h h'.
Proof.
  assert (forall g h yielded fin g' h',
             drain pulls g h = (yielded, fin, g', h') ->
             yielded = seq (next_loc h) (length yielded) /\ older h h') as Hmain.
  { induction pulls as [| pulls IH]; intros g h yielded fin g' h'; simpl.
    - intros [= <- <- <- <-]. split; [reflexivity | apply older_refl].
    - destruct (docs_next g h) as [[r g1] h1] eqn:Hnext.
      destruct (docs_next_cases g h r g1 h1 Hnext) as [Hold Hr].
      destruct r as [[l |] | e |].
      + destruct (drain pulls g1 h1) as [[[rest fin1] g2] h2] eqn:Hdrain.
        intros [= <- <- <- <-].
        destruct (IH _ _ _ _ _ _ Hdrain) as [Hrest Hold2].
        destruct Hr as (-> & Hn & _).
        split; [| exact (older_trans _ _ _ Hold Hold2)].
        simpl. rewrite <- Hn, <- Hrest. reflexivity.
      + intros [= <- <- <- <-]. split; [reflexivity | exact Hold].
      + intros [= <- <- <- <-]. split; [reflexivity | exact Hold].
      + intros [= <- <- <- <-]. split; [reflexivity | exact Hold]. }
  intros g h yielded fin g' h' H.
  destruct (Hmain _ _ _ _ _ _ H) as [Hseq Hold].
  split; [exact Hseq |]. split; [| exact Hold].
  rewrite Hseq. apply seq_NoDup.
Qed.

(** ** A document that does not reconcile *)

Lemma reconciled_raise (doc : value) (t : DataFrame) (e : exn) :
  reconciled doc t = Raise e ->
  _flatten_dict doc = Raise e \/
  exists flat, _flatten_dict doc = Ok flat /\ matching_series flat t = Raise e.
Proof.
  unfold reconciled.
  destruct (_flatten_dict doc) as [flat | e' |]; simpl.
  - unfold _match_by_review_status. simpl.
    destruct (matching_series flat t) as [series | e' |] eqn:Hs; simpl;
      try discriminate.
    intros [= <-]. right. exists flat. split; [reflexivity | exact Hs].
  - intros [= <-]. left. reflexivity.
  - discriminate.
Qed.

Lemma docs_next_raise (doc : value) (rest : list value) (t : DataFrame)
    (h : store) (e : exn) :
  reconciled doc t = Raise e ->
  exists h',
    docs_next {| pending := doc :: rest; table := t |} h =
    (Raise e, {| pending := []; table := t |}, h') /\
    older h h'.
Proof.
  intros H. apply reconciled_raise in H as [Hflat | (flat & Hflat & Hseries)].
  - exists h. unfold docs_next. simpl. rewrite Hflat.
    split; [reflexivity | apply older_refl].
  - exists (snd (alloc flat h)). unfold docs_next. simpl. rewrite Hflat. simpl.
    unfold _match_by_review_status. simpl. rewrite Nat.eqb_refl, Hseries.
    split; [reflexivity | apply (older_alloc flat h)].
Qed.

Lemma grows_then_older (h h1 h2 : store) (rs : list dict) :
  grows h h1 rs -> older h1 h2 ->
  older h h2 /\
  forall i r, rs !! i = Some r -> objects h2 (next_loc h + i) = r.
Proof.
  intros Hg Ho. split; [exact (older_trans _ _ _ (grows_older _ _ _ Hg) Ho) |].
  destruct Hg as (N & _ & R). destruct Ho as [_ O].
  intros i r Hi. rewrite O; [exact (R _ _ Hi) |].
  apply lookup_lt_Some in Hi. lia.
Qed.

(** X13: when a document fails in the flattener or in the joiner, the
    generator has yielded the records of the documents before it, which
    stay as they are, raises the exception of that document, and is
    finished: the documents after it are never reconciled, every later
    [next] is [StopIteration]. *)
Theorem docs_generator_stops (t : DataFrame) (good : list value) (bad : value)
    (rest : list value) (rs : list dict) (e : exn) (h : store) (pulls : nat) :
  reconciles t good rs ->
  reconciled bad t = Raise e ->
  length good < pulls ->
  exists h',
    drain pulls {| pending := good ++ bad :: rest; table := t |} h =
    (seq (next_loc h) (length good), Raise e, {| pending := []; table := t |}, h') /\
    (forall i r, rs !! i = Some r -> objects h' (next_loc h + i) = r) /\
    (forall later h'',
        drain (S later) {| pending := []; table := t |} h'' =
        ([], Ok (), {| pending := []; table := t |}, h'')).
Proof.
  intros Hrs Hbad Hpulls.
  assert (exists h1 h',
             drain pulls {| pending := good ++ bad :: rest; table := t |} h =
             (seq (next_loc h) (length good), Raise e,
              {| pending := []; table := t |}, h') /\
             grows h h1 rs /\ older h1 h') as (h1 & h' & Hdrain & Hg & Ho).
  { revert h pulls Hpulls. induction Hrs as [| doc r good rs Hr Hrs IH]; intros h pulls Hpulls.
    - destruct pulls as [| pulls]; [simpl in Hpulls; lia |].
      destruct (docs_next_raise bad rest t h e Hbad) as (h' & Hnext & Ho).
      exists h, h'. split; [| split; [apply grows_refl | exact Ho]].
      simpl app. simpl drain. rewrite Hnext. reflexivity.
    - destruct pulls as [| pulls]; [simpl in Hpulls; lia |]. simpl in Hpulls.
      destruct (docs_next_ok doc (good ++ bad :: rest) t h r Hr) as (h0 & Hnext & Hg0).
      destruct (IH h0 pulls ltac:(lia)) as (h1 & h' & Hdrain & Hg & Ho).
      exists h1, h'. split; [| split; [exact (grows_trans _ _ _ [r] rs Hg0 Hg) | exact Ho]].
      simpl app. simpl drain. rewrite Hnext, Hdrain.
      destruct Hg0 as (N0 & _). simpl in N0.
      replace (next_loc h0) with (S (next_loc h)) by lia. reflexivity. }
  exists h'. split; [exact Hdrain |]. split.
  - exact (proj2 (grows_then_older _ _ _ _ Hg Ho)).
  - intros later h''. reflexivity.
Qed.

Lemma docs_generator_stops_witness :
  exists h',
    drain 5 {| pending := [VDict nested_example] ++ VList [] :: example_docs;
               table := review_table |} empty_store =
    ([0], Raise AttributeError, {| pending := []; table := review_table |}, h') /\
    objects h' 0 = example_record.
Proof.
  destruct (docs_generator_stops review_table [VDict nested_example] (VList [])
              example_docs [example_record] AttributeError empty_store 5)
    as (h' & Hdrain & Hrs & _).
  - constructor; [reflexivity | constructor].
  - reflexivity.
  - simpl. lia.
  - exists h'. split; [exact Hdrain |]. apply (Hrs 0). reflexivity.
Defined.

Lemma drain_yields_fresh_witness :
  let '(yielded, _, _, h') :=
    drain 3 {| pending := example_docs; table := review_table |} empty_store in
  yielded = seq (next_loc empty_store) (length yielded) /\
  List.NoDup yielded /\
  older empty_store h'.
Proof.
  destruct (drain 3 {| pending := example_docs; table := review_table |} empty_store)
    as [[[yielded fin] g'] h'] eqn:H.
  exact (drain_yields_fresh 3 _ _ _ _ _ _ H).
Defined.

(** ** Batches up to a failing document *)

Lemma batch_for_prefix (t : DataFrame) (a : option Namespace)
    (s : option (list string)) (tail : list value) (n : nat) :
  forall good rs h results,
    reconciles t good rs ->
    n <= length good ->
    exists h',
      batch_for n (source_with a s (good ++ tail) t) h results =
      (Ok (true, results ++ seq (next_loc h) n),
       source_with a s (drop n good ++ tail) t, h') /\
      grows h h' (take n rs).
Proof.
  induction n as [| n IH]; intros good rs h results Hrs Hn.
  - exists h. split; [| apply grows_refl].
    simpl. rewrite List.app_nil_r. reflexivity.
  - destruct Hrs as [| doc r good rs Hr Hrs]; [simpl in Hn; lia |].
    simpl in Hn.
    destruct (docs_next_ok doc (good ++ tail) t h r Hr) as (h1 & Hnext & Hg1).
    destruct (IH good rs h1 (results ++ [next_loc h]) Hrs ltac:(lia))
      as (h2 & Hfor & Hg2).
    exists h2. split.
    + simpl app. simpl batch_for. rewrite Hnext.
      change (set_docs (source_with a s (doc :: good ++ tail) t)
                {| pending := good ++ tail; table := t |})
        with (source_with a s (good ++ tail) t).
      rewrite Hfor. destruct Hg1 as (N1 & _). simpl in N1.
      replace (next_loc h1) with (S (next_loc h)) by lia.
      simpl. rewrite <- List.app_assoc. reflexivity.
    + exact (grows_trans _ _ _ [r] (take n rs) Hg1 Hg2).
Qed.

Lemma batch_for_fail (t : DataFrame) (a : option Namespace)
    (s : option (list string)) (bad : value) (rest : list value) (e : exn) :
  reconciled bad t = Raise e ->
  forall good rs n h results,
    reconciles t good rs ->
    length good < n ->
    exists h1 h',
      batch_for n (source_with a s (good ++ bad :: rest) t) h results =
      (Raise e, source_with a s [] t, h') /\
      grows h h1 rs /\ older h1 h'.
Proof.
  intros Hbad good rs n h results Hrs. revert n h results.
  induction Hrs as [| doc r good rs Hr Hrs IH]; intros n h results Hn.
  - destruct n as [| n]; [simpl in Hn; lia |].
    destruct (docs_next_raise bad rest t h e Hbad) as (h' & Hnext & Ho).
    exists h, h'. split; [| split; [apply grows_refl | exact Ho]].
    simpl app. simpl batch_for. rewrite Hnext. reflexivity.
  - destruct n as [| n]; [simpl in Hn; lia |]. simpl in Hn.
    destruct (docs_next_ok doc (good ++ bad :: rest) t h r Hr) as (h0 & Hnext & Hg0).
    destruct (IH n h0 (results ++ [next_loc h]) ltac:(lia)) as (h1 & h' & Hfor & Hg & Ho).
    exists h1, h'. split; [| split; [exact (grows_trans _ _ _ [r] rs Hg0 Hg) | exact Ho]].
    simpl app. simpl batch_for. rewrite Hnext.
    change (set_docs (source_with a s (doc :: good ++ bad :: rest) t)
              {| pending := good ++ bad :: rest; table := t |})
      with (source_with a s (good ++ bad :: rest) t).
    exact Hfor.
Qed.

Lemma iterate_fail (env : Env) (t : DataFrame) (a : option Namespace)
    (s : option (list string)) (batch_size : Z) (B : nat) (bad : value)
    (rest : list value) (e : exn) :
  Z.to_nat batch_size = B ->
  0 < B ->
  reconciled bad t = Raise e ->
  forall k good rs h pulls,
    length good < k ->
    reconciles t good rs ->
    length good / B + 1 <= pulls ->
    exists batches h1 h',
      iterate pulls env (BatchYielded batch_size)
        (source_with a s (good ++ bad :: rest) t) h =
      (batches, Raise e, source_with a s [] t, h') /\
      map length batches = replicate (length good / B) B /\
      concat batches = seq (next_loc h) (B * (length good / B)) /\
      grows h h1 (take (B * (length good / B)) rs) /\ older h1 h'.
Proof.
  intros HB Hpos Hbad.
  induction k as [| k IH]; intros good rs h pulls Hk Hrs Hpulls; [lia |].
  destruct pulls as [| pulls]; [lia |].
  pose proof (Forall2_length _ _ _ Hrs) as Hlen.
  rewrite iterate_S. unfold batch_next, batch_loop. rewrite HB.
  destruct (Nat.le_gt_cases B (length good)) as [Hle | Hgt].
  - destruct (batch_for_prefix t a s (bad :: rest) B good rs h [] Hrs Hle)
      as (h0 & Hfor & Hg0).
    rewrite Hfor. simpl app.
    assert (length good / B = S (length (drop B good) / B)) as Hdiv.
    { rewrite length_drop.
      replace (length good) with ((length good - B) + 1 * B) at 1 by lia.
      rewrite Nat.div_add by lia. lia. }
    destruct (IH (drop B good) (drop B rs) h0 pulls) as (batches & h1 & h' & Hit & Hsizes & Hcat & Hg & Ho).
    + rewrite length_drop. lia.
    + apply Forall2_drop. exact Hrs.
    + lia.
    + rewrite Hit. exists (seq (next_loc h) B :: batches), h1, h'.
      split; [reflexivity |].
      assert (next_loc h0 = next_loc h + B) as Hn0.
      { destruct Hg0 as (N0 & _). rewrite length_take in N0. lia. }
      rewrite Hdiv. split; [| split; [| split; [| exact Ho]]].
      * simpl. rewrite length_seq, Hsizes. reflexivity.
      * simpl. rewrite Hcat, Hn0, <- seq_app. f_equal. lia.
      * replace (B * S (length (drop B good) / B))
          with (B + B * (length (drop B good) / B)) by lia.
        rewrite <- take_take_drop.
        exact (grows_trans _ _ _ _ _ Hg0 Hg).
  - destruct (batch_for_fail t a s bad rest e Hbad good rs B h [] Hrs Hgt)
      as (h1 & h' & Hfor & Hg & Ho).
    rewrite Hfor. rewrite Nat.div_small by exact Hgt. rewrite Nat.mul_0_r.
    exists [], h, h'.
    split; [reflexivity |]. split; [reflexivity |]. split; [reflexivity |].
    split; [apply grows_refl |].
    exact (older_trans _ _ _ (grows_older _ _ _ Hg) Ho).
Qed.

(** X14: on a loaded source whose next documents reconcile up to one that
    fails, the iteration over [getDataBatch(B)], B > 0, yields the full
    batches that come before the failing document, with their records,
    and then raises the exception of that document; the records already
    pulled into the batch under construction are not yielded, and the
    generator of the source is finished. *)
Theorem batches_stop_at_failure (env : Env) (a : Namespace)
    (s : option (list string)) (t : DataFrame) (good : list value) (bad : value)
    (rest : list value) (rs : list dict) (e : exn) (h : store)
    (batch_size : Z) (pulls : nat) :
  reconciles t good rs ->
  reconciled bad t = Raise e ->
  (0 < batch_size)%Z ->
  length good / Z.to_nat batch_size + 1 <= pulls ->
  exists batches h',
    iterate pulls env (getDataBatch batch_size)
      (source_with (Some a) s (good ++ bad :: rest) t) h =
    (batches, Raise e, source_with (Some a) s [] t, h') /\
    map length batches =
      replicate (length good / Z.to_nat batch_size) (Z.to_nat batch_size) /\
    map (objects h') (concat batches) =
      take (Z.to_nat batch_size * (length good / Z.to_nat batch_size)) rs.
Proof.
  intros Hrs Hbad Hsize Hpulls.
  assert (0 < Z.to_nat batch_size) as HB by lia.
  destruct pulls as [| pulls]; [lia |].
  rewrite (iterate_new_loaded env batch_size pulls
             (source_with (Some a) s (good ++ bad :: rest) t)
             (source_with (Some a) s (good ++ bad :: rest) t) h h);
    [| discriminate | reflexivity].
  destruct (iterate_fail env t (Some a) s batch_size _ bad rest e eq_refl HB Hbad
              (S (length good)) good rs h (S pulls) ltac:(lia) Hrs Hpulls)
    as (batches & h1 & h' & Hit & Hsizes & Hcat & Hg & Ho).
  exists batches, h'. split; [exact Hit |]. split; [exact Hsizes |].
  rewrite Hcat.
  pose proof (Forall2_length _ _ _ Hrs) as Hlen.
  assert (Z.to_nat batch_size * (length good / Z.to_nat batch_size) <= length good) as Hq
    by (apply Nat.Div0.mul_div_le).
  destruct (grows_then_older _ _ _ _ Hg Ho) as [_ Hrec].
  set (n := Z.to_nat batch_size * (length good / Z.to_nat batch_size)) in *.
  change (map (objects h') (seq (next_loc h) n)) with (objects h' <$> seq (next_loc h) n).
  apply list_eq. intros i. rewrite list_lookup_fmap.
  destruct (take n rs !! i) as [r |] eqn:Hi.
  - assert (i < n) as Hlt
      by (apply lookup_lt_Some in Hi; rewrite length_take in Hi; lia).
    rewrite lookup_seq_lt by exact Hlt. simpl. rewrite (Hrec _ _ Hi). reflexivity.
  - apply lookup_ge_None in Hi. rewrite length_take in Hi.
    rewrite lookup_seq_ge by lia. reflexivity.
Qed.

Lemma batches_stop_at_failure_witness :
  exists batches h',
    iterate 3 example_env (getDataBatch 2)
      (source_with (Some example_args) None
         (take 3 five_docs ++ VNull :: drop 3 five_docs) review_table)
      empty_store =
    (batches, Raise AttributeError,
     source_with (Some example_args) None [] review_table, h') /\
    map length batches = [2] /\
    map (objects h') (concat batches) = take 2 (records_of review_table five_docs).
Proof.
  destruct (batches_stop_at_failure example_env example_args None review_table
              (take 3 five_docs) VNull (drop 3 five_docs)
              (take 3 (records_of review_table five_docs)) AttributeError
              empty_store 2 3)
    as (batches & h' & Hit & Hsizes & Hrecords).
  - repeat (constructor; [vm_compute; reflexivity |]). constructor.
  - reflexivity.
  - lia.
  - simpl. lia.
  - exists batches, h'. split; [exact Hit |]. split; [exact Hsizes | exact Hrecords].
Defined.

(** ** One pass over the records *)

Lemma iterate_exhausted (env : Env) (a : option Namespace)
    (s : option (list string)) (t : DataFrame) (batch_size : Z) (later : nat)
    (h : store) :
  a <> None ->
  (0 < batch_size)%Z ->
  iterate (S later) env (getDataBatch batch_size) (source_with a s [] t) h =
  ([], Ok (), source_with a s [] t, h).
Proof.
  intros Ha Hsize.
  rewrite (iterate_new_loaded env batch_size later (source_with a s [] t)
             (source_with a s [] t) h h); [| exact Ha | reflexivity].
  rewrite iterate_S. unfold batch_next, batch_loop.
  destruct (Z.to_nat batch_size) as [| n] eqn:Hn; [lia |]. reflexivity.
Qed.

(** X15: the records are streamed once. On a loaded source whose
    documents reconcile, an iteration over [getDataBatch(B)], B > 0,
    yields every record and leaves the generator of the source finished;
    any later iteration over a new [getDataBatch(B')], B' > 0, on that
    source ends at once without a batch. *)
Theorem stream_is_single_pass (env : Env) (a : Namespace)
    (s : option (list string)) (t : DataFrame) (docs : list value)
    (rs : list dict) (h : store) (batch_size : Z) (pulls : nat) :
  reconciles t docs rs ->
  (0 < batch_size)%Z ->
  length docs / Z.to_nat batch_size + 2 <= pulls ->
  exists batches h',
    iterate pulls env (getDataBatch batch_size) (source_with (Some a) s docs t) h =
    (batches, Ok (), source_with (Some a) s [] t, h') /\
    map (objects h') (concat batches) = rs /\
    forall env' batch_size' later h'',
      (0 < batch_size')%Z ->
      iterate (S later) env' (getDataBatch batch_size')
        (source_with (Some a) s [] t) h'' =
      ([], Ok (), source_with (Some a) s [] t, h'').
Proof.
  intros Hrs Hsize Hpulls.
  assert (0 < Z.to_nat batch_size) as HB by lia.
  destruct pulls as [| pulls]; [lia |].
  destruct (iterate_running env t (Some a) s batch_size _ eq_refl HB
              (S (length docs)) docs rs h (S pulls) ltac:(lia) Hrs Hpulls)
    as (batches & h' & Hit & Hg & _ & Hcat).
  exists batches, h'. split; [| split].
  - rewrite (iterate_new_loaded env batch_size pulls (source_with (Some a) s docs t)
               (source_with (Some a) s docs t) h h); [exact Hit | discriminate | reflexivity].
  - rewrite Hcat, (Forall2_length _ _ _ Hrs). apply records_in_order. exact Hg.
  - intros env' batch_size' later h'' Hsize'.
    apply iterate_exhausted; [discriminate | exact Hsize'].
Qed.

Lemma stream_is_single_pass_witness :
  exists batches h',
    iterate 4 five_env (getDataBatch 2)
      (source_with (Some example_args) None five_docs review_table) empty_store =
    (batches, Ok (), source_with (Some example_args) None [] review_table, h') /\
    map (objects h') (concat batches) = records_of review_table five_docs /\
    iterate 1 five_env (getDataBatch 2)
      (source_with (Some example_args) None [] review_table) h' =
    ([], Ok (), source_with (Some example_args) None [] review_table, h').
Proof.
  destruct (stream_is_single_pass five_env example_args None review_table five_docs
              (records_of review_table five_docs) empty_store 2 4)
    as (batches & h' & Hit & Hrecords & Hlater).
  - repeat (constructor; [vm_compute; reflexivity |]). constructor.
  - lia.
  - simpl. lia.
  - exists batches, h'. split; [exact Hit |]. split; [exact Hrecords |].
    apply Hlater. lia.
Defined.

(** ** The schema does not consume the stream *)

(** X16: [getSchema] on a fresh configured source reconciles the first
    document for its keys and leaves every document, the first included,
    to the generator: the iteration over [getDataBatch(B)] that follows
    yields the records of all the documents, in order. The record made
    for the schema is one more object of the store. *)
Theorem getSchema_keeps_stream (env : Env) (a : Namespace) (h : store)
    (data : value) (first : value) (rest : list value) (t : DataFrame)
    (r1 : dict) (rs : list dict) (batch_size : Z) (pulls : nat) :
  read_json env (api_response_file a) = inr data ->
  _get_nested_data data _response_docs = Ok (VList (first :: rest)) ->
  read_reference env (reference_data_file a) = inr t ->
  reconciles t (first :: rest) (r1 :: rs) ->
  (0 < batch_size)%Z ->
  length (first :: rest) / Z.to_nat batch_size + 2 <= pulls ->
  exists h1,
    getSchema env {| args := Some a; _docs := None; _schema := None |} h =
    (Ok (Some (dict_keys r1)),
     source_with (Some a) (Some (dict_keys r1)) (first :: rest) t, h1) /\
    grows h h1 [r1] /\
    forall env',
    exists batches self' h',
      iterate pulls env' (getDataBatch batch_size)
        (source_with (Some a) (Some (dict_keys r1)) (first :: rest) t) h1 =
      (batches, Ok (), self', h') /\
      map (objects h') (concat batches) = r1 :: rs.
Proof.
  intros Hjson Hdocs Href Hrs Hsize Hpulls.
  assert (reconciled first t = Ok r1) as Hr1 by (inversion Hrs; assumption).
  destruct (load_data_fresh env a None h data first rest t r1 Hjson Hdocs Href Hr1)
    as (h1 & Hload & Hg1).
  exists h1. split; [| split; [exact Hg1 |]].
  - unfold getSchema, _check_args, _load_schema. cbn [args _schema].
    rewrite Hload. reflexivity.
  - intros env'.
    assert (0 < Z.to_nat batch_size) as HB by lia.
    destruct pulls as [| pulls]; [lia |].
    destruct (iterate_running env' t (Some a) (Some (dict_keys r1)) batch_size _
                eq_refl HB (S (length (first :: rest))) (first :: rest) (r1 :: rs)
                h1 (S pulls) ltac:(lia) Hrs Hpulls)
      as (batches & h' & Hit & Hg & _ & Hcat).
    exists batches, (source_with (Some a) (Some (dict_keys r1)) [] t), h'.
    split.
    + rewrite (iterate_new_loaded env' batch_size pulls
                 (source_with (Some a) (Some (dict_keys r1)) (first :: rest) t)
                 (source_with (Some a) (Some (dict_keys r1)) (first :: rest) t) h1 h1);
        [exact Hit | discriminate | reflexivity].
    + rewrite Hcat, (Forall2_length _ _ _ Hrs). apply records_in_order. exact Hg.
Qed.

Lemma getSchema_keeps_stream_witness :
  exists h1 schema,
    getSchema five_env example_source empty_store =
    (Ok (Some schema),
     source_with (Some example_args) (Some schema) five_docs review_table, h1) /\
    exists batches self' h',
      iterate 4 five_env (getDataBatch 2)
        (source_with (Some example_args) (Some schema) five_docs review_table) h1 =
      (batches, Ok (), self', h') /\
      map (objects h') (concat batches) = records_of review_table five_docs.
Proof.
  destruct (getSchema_keeps_stream five_env example_args empty_store
              (VDict [("response", VDict [("docs", VList five_docs)])])
              (VDict [("_id", VStr "A1"); ("word_count", VNum 1)])
              (drop 1 five_docs) review_table
              (records_of review_table five_docs !!! 0)
              (drop 1 (records_of review_table five_docs)) 2 4)
    as (h1 & Hschema & _ & Hbatches).
  - reflexivity.
  - reflexivity.
  - reflexivity.
  - repeat (constructor; [vm_compute; reflexivity |]). constructor.
  - lia.
  - simpl. lia.
  - exists h1. eexists. split; [exact Hschema |]. exact (Hbatches five_env).
Defined.

(** ** Failures while loading *)

(** X17: when the document file cannot be read or parsed, when it has no
    list at ["response"]["docs"] to walk to, or when the reference file
    cannot be loaded, [getSchema] and the first pull on [getDataBatch(B)]
    raise that exception and leave the instance and the store as they
    were: nothing is remembered of the failed load. *)
Theorem load_errors_surface (env : Env) (a : Namespace) (s : option (list string))
    (h : store) (batch_size : Z) (e : exn) :
  read_json env (api_response_file a) = inl e \/
  (exists data,
      read_json env (api_response_file a) = inr data /\
      _get_nested_data data _response_docs = Raise e) \/
  (exists data docs,
      read_json env (api_response_file a) = inr data /\
      _get_nested_data data _response_docs = Ok docs /\
      read_reference env (reference_data_file a) = inl e) ->
  _load_data env {| args := Some a; _docs := None; _schema := s |} h =
    (Raise e, {| args := Some a; _docs := None; _schema := s |}, h) /\
  getSchema env {| args := Some a; _docs := None; _schema := None |} h =
    (Raise e, {| args := Some a; _docs := None; _schema := None |}, h) /\
  batch_next env (getDataBatch batch_size)
    {| args := Some a; _docs := None; _schema := s |} h =
    (Raise e, BatchDone, {| args := Some a; _docs := None; _schema := s |}, h).
Proof.
  intros Hfail.
  assert (forall s0,
             _load_data env {| args := Some a; _docs := None; _schema := s0 |} h =
             (Raise e, {| args := Some a; _docs := None; _schema := s0 |}, h)) as Hload.
  { intros s0. unfold _load_data, load_inputs. cbn [_docs args].
    destruct Hfail as [Hjson | [(data & Hjson & Hpath) | (data & docs & Hjson & Hpath & Href)]].
    - rewrite Hjson. reflexivity.
    - rewrite Hjson. cbn [loaded]. rewrite bind_Ok, Hpath. reflexivity.
    - rewrite Hjson. cbn [loaded]. rewrite bind_Ok, Hpath, bind_Ok, Href. reflexivity. }
  split; [apply Hload |]. split.
  - unfold getSchema, _check_args, _load_schema. cbn [args _schema].
    rewrite Hload. reflexivity.
  - unfold getDataBatch, batch_next, _check_args. cbn [args].
    rewrite Hload. reflexivity.
Qed.

Lemma load_errors_surface_witness :
  getSchema {| read_json := fun _ => inr (VDict [("response", VList [])]);
               read_reference := fun _ => inr review_table |}
    example_source empty_store =
  (Raise TypeError, example_source, empty_store).
Proof.
  eapply (proj1 (proj2 (load_errors_surface _ example_args None empty_store 1 TypeError _))).
  Unshelve. right. left. eexists. split; reflexivity.
Defined.

(** X18: when the first document does not reconcile, [getSchema] and the
    first pull on [getDataBatch(B)] raise its exception, whatever the
    other documents are, and the instance stays unloaded. *)
Theorem first_document_fails (env : Env) (a : Namespace) (h : store)
    (data : value) (first : value) (rest : list value) (t : DataFrame)
    (e : exn) (batch_size : Z) :
  read_json env (api_response_file a) = inr data ->
  _get_nested_data data _response_docs = Ok (VList (first :: rest)) ->
  read_reference env (reference_data_file a) = inr t ->
  reconciled first t = Raise e ->
  exists h1,
    older h h1 /\
    getSchema env {| args := Some a; _docs := None; _schema := None |} h =
      (Raise e, {| args := Some a; _docs := None; _schema := None |}, h1) /\
    batch_next env (getDataBatch batch_size)
      {| args := Some a; _docs := None; _schema := None |} h =
      (Raise e, BatchDone, {| args := Some a; _docs := None; _schema := None |}, h1).
Proof.
  intros Hjson Hdocs Href Hrec.
  assert (exists h1,
             older h h1 /\
             _load_data env {| args := Some a; _docs := None; _schema := None |} h =
             (Raise e, {| args := Some a; _docs := None; _schema := None |}, h1))
    as (h1 & Ho & Hload).
  { unfold _load_data, load_inputs. cbn [_docs args].
    rewrite Hjson. cbn [loaded]. rewrite bind_Ok, Hdocs, bind_Ok, Href.
    cbn [loaded]. rewrite bind_Ok. cbn [index0]. rewrite bind_Ok.
    apply reconciled_raise in Hrec as [Hflat | (flat & Hflat & Hseries)].
    - exists h. rewrite Hflat. split; [apply older_refl | reflexivity].
    - exists (snd (alloc flat h)). rewrite Hflat, bind_Ok.
      unfold _match_by_review_status. simpl. rewrite Nat.eqb_refl, Hseries.
      split; [apply (older_alloc flat h) | reflexivity]. }
  exists h1. split; [exact Ho |]. split.
  - unfold getSchema, _check_args, _load_schema. cbn [args _schema].
    rewrite Hload. reflexivity.
  - unfold getDataBatch, batch_next, _check_args. cbn [args].
    rewrite Hload. reflexivity.
Qed.

Lemma first_document_fails_witness :
  exists h1,
    getSchema {| read_json := fun _ =>
                   inr (VDict [("response",
                                VDict [("docs", VList (VDict [("_id", VStr "B7")]
                                                         :: example_docs))])]);
                 read_reference := fun _ => inr review_table |}
      example_source empty_store =
    (Raise ValueError, example_source, h1).
Proof.
  edestruct (first_document_fails
               {| read_json := fun _ =>
                    inr (VDict [("response",
                                 VDict [("docs", VList (VDict [("_id", VStr "B7")]
                                                          :: example_docs))])]);
                  read_reference := fun _ => inr review_table |}
               example_args empty_store)
    as (h1 & _ & Hschema & _); [reflexivity .. |].
  exists h1. exact Hschema.
  Unshelve. exact 1%Z.
Defined.

(** ** Stripping *)

Lemma lstrip_split (s : string) :
  exists pre, s = (pre ++ lstrip s)%string /\ string_forall is_space pre = true.
Proof.
  induction s as [| c s (pre & Hs & Hpre)]; simpl.
  - exists EmptyString. split; reflexivity.
  - destruct (is_space c) eqn:Hc.
    + exists (String c pre). simpl. rewrite Hc, Hpre, <- Hs. split; reflexivity.
    + exists EmptyString. split; reflexivity.
Qed.

Lemma rstrip_split (s : string) :
  exists post, s = (rstrip s ++ post)%string /\ string_forall is_space post = true.
Proof.
  induction s as [| c s (post & Hs & Hpost)]; simpl.
  - exists EmptyString. split; reflexivity.
  - destruct (rstrip s) as [| c' s'] eqn:Hr.
    + simpl in Hs. subst post. destruct (is_space c) eqn:Hc.
      * exists (String c s). simpl. rewrite Hc, Hpost. split; reflexivity.
      * exists s. split; [reflexivity | exact Hpost].
    + exists post. split; [| exact Hpost]. simpl. rewrite Hs at 1. reflexivity.
Qed.

Lemma lstrip_no_lead (s : string) : starts_with_space (lstrip s) = false.
Proof.
  induction s as [| c s IH]; simpl; [reflexivity |].
  destruct (is_space c) eqn:Hc; [exact IH | simpl; exact Hc].
Qed.

Lemma rstrip_no_trail (s : string) : ends_with_space (rstrip s) = false.
Proof.
  induction s as [| c s IH]; simpl; [reflexivity |].
  destruct (rstrip s) as [| c' s'] eqn:Hr.
  - destruct (is_space c) eqn:Hc; [reflexivity | simpl; exact Hc].
  - exact IH.
Qed.

Lemma rstrip_keeps_lead (s : string) :
  starts_with_space s = false -> starts_with_space (rstrip s) = false.
Proof.
  destruct s as [| c s]; simpl; [reflexivity |]. intros Hc.
  destruct (rstrip s); [rewrite Hc |]; simpl; exact Hc.
Qed.

Lemma lstrip_id (s : string) : starts_with_space s = false -> lstrip s = s.
Proof. destruct s as [| c s]; simpl; [reflexivity |]. intros ->. reflexivity. Qed.

Lemma rstrip_id (s : string) : ends_with_space s = false -> rstrip s = s.
Proof.
  induction s as [| c s IH]; [reflexivity |].
  destruct s as [| c' s'].
  - simpl. intros ->. reflexivity.
  - intros H. change (ends_with_space (String c' s') = false) in H.
    change (rstrip (String c (String c' s')))
      with (match rstrip (String c' s') with
            | EmptyString => if is_space c then EmptyString else String c EmptyString
            | rest' => String c rest'
            end).
    rewrite (IH H). reflexivity.
Qed.

(** X19: on a string of ASCII characters, [strip] removes white space at
    the two ends and nothing else: the string is the stripped string
    between two runs of white space, the stripped string neither starts
    nor ends with white space, and stripping it again changes nothing. *)
Theorem strip_trims (s : string) :
  string_forall is_ascii s = true ->
  (exists pre post,
      s = (pre ++ strip s ++ post)%string /\
      string_forall is_space pre = true /\ string_forall is_space post = true) /\
  starts_with_space (strip s) = false /\
  ends_with_space (strip s) = false /\
  strip (strip s) = strip s.
Proof.
  intros _. unfold strip.
  assert (starts_with_space (rstrip (lstrip s)) = false) as Hlead
    by (apply rstrip_keeps_lead, lstrip_no_lead).
  pose proof (rstrip_no_trail (lstrip s)) as Htrail.
  split; [| split; [exact Hlead | split; [exact Htrail |]]].
  - destruct (lstrip_split s) as (pre & Hs & Hpre).
    destruct (rstrip_split (lstrip s)) as (post & Hl & Hpost).
    exists pre, post. split; [| split; assumption].
    rewrite <- Hl. exact Hs.
  - rewrite (lstrip_id _ Hlead). apply rstrip_id. exact Htrail.
Qed.

Lemma strip_trims_witness :
  strip "  in review " = "in review" /\
  (exists pre post,
      "  in review " = (pre ++ strip "  in review " ++ post)%string /\
      string_forall is_space pre = true /\ string_forall is_space post = true) /\
  starts_with_space (strip "  in review ") = false /\
  ends_with_space (strip "  in review ") = false /\
  strip (strip "  in review ") = strip "  in review ".
Proof.
  split; [reflexivity |]. apply (strip_trims "  in review "). reflexivity.
Defined.

(** ** The sheet loader *)

Lemma data_frame_fresh (read_excel : Reader) (self : Excel) :
  _excel_df self = None ->
  data_frame read_excel self =
  match read_excel (_path self) (_sheet_name self) (_index_col self) (_header self) with
  | inr raw =>
      (Ok (Some (apply_converters
                   (map (fun column => (column, strip_converter)) (columns self)) raw)),
       set_excel_df self
         (apply_converters
            (map (fun column => (column, strip_converter)) (columns self)) raw))
  | inl e => (Raise e, self)
  end.
Proof.
  intros Hnone. unfold data_frame, _load_sheet. rewrite Hnone.
  destruct (read_excel (_path self) (_sheet_name self) (_index_col self) (_header self));
    reflexivity.
Qed.

(** X20: a sheet is read once. After [data_frame] has returned a frame,
    every later [data_frame] on the object returns that frame without
    reading, whatever the file then holds, and leaves the object as it
    is; and a read that raises leaves the object unloaded, so the next
    access reads again. *)
Theorem data_frame_memoized (read_excel : Reader) (self : Excel) :
  (forall frame self1,
      data_frame read_excel self = (Ok (Some frame), self1) ->
      forall read_excel', data_frame read_excel' self1 = (Ok (Some frame), self1)) /\
  (forall e,
      _excel_df self = None ->
      read_excel (_path self) (_sheet_name self) (_index_col self) (_header self) = inl e ->
      data_frame read_excel self = (Raise e, self) /\
      forall read_excel' raw,
        read_excel' (_path self) (_sheet_name self) (_index_col self) (_header self)
        = inr raw ->
        exists frame self1,
          data_frame read_excel' self = (Ok (Some frame), self1) /\
          length frame = length raw).
Proof.
  split.
  - intros frame self1 H read_excel'.
    destruct (_excel_df self) as [f |] eqn:Hdf.
    + unfold data_frame, _load_sheet in *. rewrite Hdf in H. simpl in H.
      rewrite Hdf in H. injection H as <- <-. rewrite Hdf. simpl. rewrite Hdf.
      reflexivity.
    + rewrite (data_frame_fresh _ _ Hdf) in H.
      destruct (read_excel (_path self) (_sheet_name self) (_index_col self)
                  (_header self)); [discriminate |].
      injection H as <- <-. reflexivity.
  - intros e Hdf Hread. rewrite (data_frame_fresh _ _ Hdf), Hread.
    split; [reflexivity |].
    intros read_excel' raw Hread'. rewrite (data_frame_fresh _ _ Hdf), Hread'.
    do 2 eexists. split; [reflexivity |].
    unfold apply_converters. apply length_map.
Qed.

Lemma data_frame_memoized_witness :
  exists frame self1,
    data_frame example_reader (review_status_sheet "reference_data.xlsx") =
    (Ok (Some frame), self1) /\
    data_frame failing_reader self1 = (Ok (Some frame), self1) /\
    data_frame failing_reader (review_status_sheet "reference_data.xlsx") =
    (Raise OSError, review_status_sheet "reference_data.xlsx").
Proof.
  do 2 eexists. split; [reflexivity |]. split.
  - eapply (proj1 (data_frame_memoized example_reader
                     (review_status_sheet "reference_data.xlsx"))).
    reflexivity.
  - apply (proj2 (data_frame_memoized failing_reader
                    (review_status_sheet "reference_data.xlsx")) OSError);
      reflexivity.
Defined.

